(** * Streamlink session plugins and HTTP stream: a shallow embedding

    This development models two classes of the repository:

    - [StreamlinkPlugins] (libs/streamlink/session/plugins.py), the registry
      that loads plugin classes and resolves a URL to one of them;
    - [HTTPStream] (libs/streamlink/stream/http.py), of which the [close]
      method is verified.

    Python's [dict] is insertion ordered and the registry relies on that
    order, so a dictionary is modelled by the list of its items in iteration
    order.  Exceptions are modelled by an [outcome] type and the calls to the
    [logging] module by the list of emitted records. *)

From stdpp Require Import base option list strings sorting gmap.

(** ** Exceptions, log records and the small monad threading them *)

(** The exception classes that the modelled code can meet.  [ImportError]
    stands for the class and its subclasses (what [except ImportError]
    catches) and carries the rendering of the exception's [path] attribute;
    [OtherError] is any exception of another class, named by its class. *)
Inductive exn : Type :=
  | KeyError (key : string)
  | TypeError (msg : string)
  | ImportError (path : string)
  | AttributeError (attribute : string)
  | OtherError (cls : string).

Inductive outcome (A : Type) : Type :=
  | Return (a : A)
  | Raise (e : exn).
Arguments Return {A} a.
Arguments Raise {A} e.

Inductive level : Type := DEBUG | INFO | ERROR.

(** A log record: the level and the formatted message. *)
Definition record : Type := level * string.

(** A computation yields an outcome and the records it logged, in order. *)
Definition M (A : Type) : Type := outcome A * list record.

Definition ret {A} (a : A) : M A := (Return a, []).

Definition bind {A B} (m : M A) (k : A → M B) : M B :=
  match m with
  | (Return a, l) => let '(r, l') := k a in (r, l ++ l')
  | (Raise e, l) => (Raise e, l)
  end.

Definition emit (lvl : level) (msg : string) : M unit := (Return tt, [(lvl, msg)]).

Notation "'let*' x ':=' m 'in' k" := (bind m (λ x, k))
  (at level 10, x pattern, m at level 100, k at level 200).

(** ** Python dictionaries with string keys *)

Section dict.
Context {V : Type}.
Implicit Types (d other : list (string * V)) (k : string) (v : V).

(** [d.get(k)] *)
Fixpoint dict_get d k : option V :=
  match d with
  | [] => None
  | (k', v) :: d' => if decide (k' = k) then Some v else dict_get d' k
  end.

(** [d[k]], which raises [KeyError] on a missing key *)
Definition dict_getitem d k : outcome V :=
  match dict_get d k with
  | Some v => Return v
  | None => Raise (KeyError k)
  end.

(** [k in d] *)
Definition dict_contains d k : bool :=
  match dict_get d k with Some _ => true | None => false end.

(** [d[k] = v]: an existing key keeps its position, a new key goes last *)
Fixpoint dict_setitem d k v : list (string * V) :=
  match d with
  | [] => [(k, v)]
  | (k', v') :: d' =>
      if decide (k' = k) then (k, v) :: d' else (k', v') :: dict_setitem d' k v
  end.

(** [d.update(other)]: [d[k] = v] for each item of [other], in its order *)
Definition dict_update d other : list (string * V) :=
  foldl (λ acc kv, dict_setitem acc kv.1 kv.2) d other.

(** [d.pop(k, None)], the dictionary that remains *)
Fixpoint dict_pop d k : list (string * V) :=
  match d with
  | [] => []
  | (k', v') :: d' => if decide (k' = k) then d' else (k', v') :: dict_pop d' k
  end.

(** [d.keys()] in iteration order *)
Definition dict_keys d : list string := d.*1.

(** [bool(d)] *)
Definition dict_bool d : bool :=
  match d with [] => false | _ :: _ => true end.

(** The representation invariant: a key occurs once. *)
Definition dict_ok d : Prop := NoDup (dict_keys d).
End dict.

(** ** The plugin registry: [StreamlinkPlugins] *)

Definition LF : string := String (Ascii.ascii_of_nat 10) EmptyString.

Module StreamlinkPlugins.
Section registry.
(** What the registry takes from the rest of the package:
    - [Plugin], the plugin classes, and [matchers], their class attribute of
      that name: [None], or a [Matchers] collection given by the list of
      its matchers in iteration (declaration) order;
    - [pattern_match matcher url], for [matcher.pattern.match(url) is not None];
    - [iter_modules path], for [pkgutil.iter_modules([str(path)])];
    - [exec_module finder name], for the outcome of
      [exec_module(finder, name, override=True)]. *)
Context {Plugin Matcher Finder : Type}.

(** The value of a module attribute [__plugin__]: a class derived from
    [Plugin], another class, or an object that is not a class. *)
Inductive attr : Type :=
  | PluginClass (plugin : Plugin)
  | OtherClass
  | NotAClass.

(** A module after execution: [__file__] and, when the module defines it,
    [__plugin__]. *)
Record PyModule : Type := { __file__ : string; __plugin__ : option attr }.

Context (matchers : Plugin → option (list Matcher)).
Context (pattern_match : Matcher → string → bool).
Context (iter_modules : string → list (Finder * string * bool)).
Context (exec_module : Finder → string → outcome PyModule).
Context (_PLUGINS_PATH : string).

(** The state of a [StreamlinkPlugins] object is the dictionary held by its
    only field, [self._plugins]; a method that mutates it returns the new
    items. *)
Abbreviation registry := (list (string * Plugin)).
Implicit Types (self plugins : registry) (url name : string).

Definition lift {A} (o : outcome A) : M A := (o, []).

Definition __getitem__ self (item : string) : outcome Plugin :=
  dict_getitem self item.

Definition __setitem__ self (key : string) (value : Plugin) : registry :=
  dict_setitem self key value.

Definition __delitem__ self (key : string) : registry :=
  dict_pop self key.

Definition __contains__ self (item : string) : bool :=
  dict_contains self item.

(** [sorted(self._plugins.keys())]: strings compare by code points. *)
Definition get_names self : list string :=
  merge_sort String.le (dict_keys self).

(** [dict(self._plugins)]: the items of the new dictionary. *)
Definition get_loaded self : registry := self.

Definition update self plugins : registry := dict_update self plugins.

Definition clear self : registry := [].

(** The generator of [(name, plugin.matchers)] for the plugins whose
    [matchers] is truthy: not [None] and not empty. *)
Definition iter_matchers self : list (string * list Matcher) :=
  omap (λ '(name, plugin),
          match matchers plugin with
          | Some (m :: ms) => Some (name, m :: ms)
          | _ => None
          end) self.

(** The inner loop of [match_url] over the matchers of one plugin; [next]
    is the rest of the outer loop, run when no matcher returns. *)
Fixpoint match_matchers self name url (ms : list Matcher)
    (next : M (option (string * Plugin))) : M (option (string * Plugin)) :=
  match ms with
  | [] => next
  | matcher :: ms' =>
      if pattern_match matcher url then
        let* _ := emit DEBUG ("Plugin [" +:+ name +:+ "] found for: " +:+ url) in
        let* plugin := lift (dict_getitem self name) in
        ret (Some (name, plugin))
      else match_matchers self name url ms' next
  end.

(** The outer loop of [match_url]. *)
Fixpoint match_plugins self url (it : list (string * list Matcher))
    : M (option (string * Plugin)) :=
  match it with
  | [] => ret None
  | (name, ms) :: it' =>
      match_matchers self name url ms (match_plugins self url it')
  end.

Definition match_url self url : M (option (string * Plugin)) :=
  match_plugins self url (iter_matchers self).

Definition _load_plugin_from_finder name (finder : Finder)
    : M (option (PyModule * Plugin)) :=
  match exec_module finder ("streamlink.plugins." +:+ name) with
  | Raise (ImportError path) =>
      let* _ := emit ERROR
        ("Failed to load plugin " +:+ name +:+ " from " +:+ path +:+ LF) in
      ret None
  | Raise e => lift (Raise e)
  | Return mod_ =>
      match __plugin__ mod_ with
      | None => ret None
      | Some NotAClass =>
          lift (Raise (TypeError "issubclass() arg 1 must be a class"))
      | Some OtherClass => ret None
      | Some (PluginClass plugin) => ret (Some (mod_, plugin))
      end
  end.

(** The loop of [_load_from_path] over the modules found, threading the
    four local dictionaries. *)
Fixpoint load_modules (mods : list (Finder * string * bool))
    (plugins tDash tHls tHttp : registry)
    : M (registry * registry * registry * registry) :=
  match mods with
  | [] => ret (plugins, tDash, tHls, tHttp)
  | (finder, name, _) :: mods' =>
      let* lookup := _load_plugin_from_finder name finder in
      match lookup with
      | None => load_modules mods' plugins tDash tHls tHttp
      | Some (mod_, plugin) =>
          if decide (name = "dash") then
            load_modules mods' plugins (dict_setitem tDash name plugin) tHls tHttp
          else if decide (name = "hls") then
            load_modules mods' plugins tDash (dict_setitem tHls name plugin) tHttp
          else if decide (name = "http") then
            load_modules mods' plugins tDash tHls (dict_setitem tHttp name plugin)
          else
            let* _ :=
              if dict_contains plugins name then
                emit INFO ("Plugin " +:+ name +:+ " is being overridden by "
                           +:+ __file__ mod_)
              else ret tt in
            load_modules mods' (dict_setitem plugins name plugin) tDash tHls tHttp
      end
  end.

Definition _load_from_path (path : string) : M registry :=
  let* (plugins, tDash, tHls, tHttp) :=
    load_modules (iter_modules path) [] [] [] [] in
  let plugins := if dict_bool tHls then dict_update plugins tHls else plugins in
  let plugins := if dict_bool tDash then dict_update plugins tDash else plugins in
  let plugins := if dict_bool tHttp then dict_update plugins tHttp else plugins in
  ret plugins.

(** [load_path] returns its boolean and leaves [self._plugins] with the
    items paired with it; when it raises, [self._plugins] is as before. *)
Definition load_path self (path : string) : M (bool * registry) :=
  let* plugins := _load_from_path path in
  let self := update self plugins in
  ret (dict_bool plugins, self).

Definition load_builtin self : M (bool * registry) :=
  load_path self _PLUGINS_PATH.

Definition __init__ (builtin : bool) : M registry :=
  let self : registry := [] in
  if builtin then
    let* (_, self) := load_builtin self in ret self
  else ret self.

(** *** Vocabulary of the statements *)

(** The matcher set of [plugin] matches [url]: one of its patterns does. *)
Definition plugin_matches (plugin : Plugin) url : bool :=
  match matchers plugin with
  | Some ms => existsb (λ matcher, pattern_match matcher url) ms
  | None => false
  end.

(** The first item, in iteration order, whose matcher set matches. *)
Fixpoint first_match url self : option (string * Plugin) :=
  match self with
  | [] => None
  | (name, plugin) :: self' =>
      if plugin_matches plugin url then Some (name, plugin)
      else first_match url self'
  end.

(** The record that [match_url] logs when it returns a plugin. *)
Definition found_record name url : record :=
  (DEBUG, "Plugin [" +:+ name +:+ "] found for: " +:+ url).

(** The three reserved names of the generic plugins. *)
Definition is_fallback name : bool :=
  bool_decide (name ∈ ["dash"; "hls"; "http"]).

(** A local dictionary of the loader that is empty or holds [name] only. *)
Definition holds_only name (d : registry) : Prop :=
  d = [] ∨ ∃ plugin, d = [(name, plugin)].

(** The plugin class that the module found by [finder] exports, if it
    executes and defines one. *)
Definition exported (finder : Finder) name : option Plugin :=
  match exec_module finder ("streamlink.plugins." +:+ name) with
  | Return mod_ =>
      match __plugin__ mod_ with
      | Some (PluginClass plugin) => Some plugin
      | _ => None
      end
  | Raise _ => None
  end.

Definition exports (entry : Finder * string * bool) : bool :=
  match exported entry.1.1 entry.1.2 with Some _ => true | None => false end.

(** The module executes, or fails with an [ImportError]; when it defines
    [__plugin__], that is a class. *)
Definition benign (entry : Finder * string * bool) : Prop :=
  match exec_module entry.1.1 ("streamlink.plugins." +:+ entry.1.2) with
  | Return mod_ => __plugin__ mod_ ≠ Some NotAClass
  | Raise (ImportError _) => True
  | Raise _ => False
  end.

(** The record logged for a module that fails with an [ImportError]. *)
Definition failure_record (entry : Finder * string * bool) : option record :=
  match exec_module entry.1.1 ("streamlink.plugins." +:+ entry.1.2) with
  | Raise (ImportError path) =>
      Some (ERROR, "Failed to load plugin " +:+ entry.1.2 +:+ " from "
                   +:+ path +:+ LF)
  | _ => None
  end.

Definition is_error (r : record) : bool :=
  match r.1 with ERROR => true | _ => false end.

(** The invariant of the loop of [_load_from_path] on its four local
    dictionaries. *)
Definition loop_invariant plugins (tDash tHls tHttp : registry) : Prop :=
  dict_ok plugins ∧
  (∀ name, name ∈ dict_keys plugins → is_fallback name = false) ∧
  holds_only "dash" tDash ∧ holds_only "hls" tHls ∧ holds_only "http" tHttp.

(** The plugin that the loop of [_load_from_path] holds for [name]: under
    the three reserved names it is kept in the dictionary of that name. *)
Definition held plugins (tDash tHls tHttp : registry) name : option Plugin :=
  if decide (name = "dash") then dict_get tDash name
  else if decide (name = "hls") then dict_get tHls name
  else if decide (name = "http") then dict_get tHttp name
  else dict_get plugins name.

(** The names of the modules found, in order. *)
Definition module_names (mods : list (Finder * string * bool)) : list string :=
  (λ entry, entry.1.2) <$> mods.

(** The order in which [_load_from_path] leaves the plugins of a batch:
    the plugins under other names first, then [hls], [dash] and [http],
    each if the batch has it. *)
Definition batch_order plugins : Prop :=
  ∃ specific tHls tDash tHttp,
    plugins = specific ++ tHls ++ tDash ++ tHttp ∧
    (∀ name, name ∈ dict_keys specific → is_fallback name = false) ∧
    holds_only "hls" tHls ∧ holds_only "dash" tDash ∧ holds_only "http" tHttp.
(** *** The plugins with arguments *)

(** [arguments] is the class attribute of that name, [None] or an
    [Arguments] object, and [arguments_bool] is the truth value of such an
    object. *)
Context {PluginArguments : Type}.
Context (arguments : Plugin → option PluginArguments).
Context (arguments_bool : PluginArguments → bool).

Definition iter_arguments self : list (string * PluginArguments) :=
  omap (λ '(name, plugin),
          match arguments plugin with
          | Some args => if arguments_bool args then Some (name, args) else None
          | None => None
          end) self.

(** The exception with which the loading of a module ends, when it does:
    the exception of the module unless that is an [ImportError], or the
    [TypeError] of [issubclass] for a [__plugin__] that is not a class. *)
Definition raised_by (entry : Finder * string * bool) : option exn :=
  match exec_module entry.1.1 ("streamlink.plugins." +:+ entry.1.2) with
  | Return mod_ =>
      match __plugin__ mod_ with
      | Some NotAClass => Some (TypeError "issubclass() arg 1 must be a class")
      | _ => None
      end
  | Raise (ImportError _) => None
  | Raise e => Some e
  end.
End registry.
End StreamlinkPlugins.

(** ** Dictionary objects and references to them

    [get_loaded] returns a new dictionary object while the mutating methods
    act in place on the object that [self._plugins] refers to.  The store
    maps the address of each dictionary object to its items. *)
Module Store.
Section store.
Context {Plugin Finder : Type}.
Context (iter_modules : string → list (Finder * string * bool)).
Context (exec_module : Finder → string → outcome (@StreamlinkPlugins.PyModule Plugin)).

Abbreviation store := (gmap positive (list (string * Plugin))).

(** A [StreamlinkPlugins] object: its field refers to a dictionary. *)
Record object : Type := { _plugins : positive }.

(** The calls that mutate the registry. *)
Inductive call : Type :=
  | Setitem (key : string) (value : Plugin)
  | Delitem (key : string)
  | Update (plugins : list (string * Plugin))
  | Clear
  | LoadPath (path : string).

(** The effect of a mutating call on the store: the items of the
    dictionary at [self._plugins] change as the method says; a [load_path]
    that raises leaves them as they are. *)
Definition run_call (self : object) (c : call) (σ : store) : store :=
  match c with
  | Setitem key value =>
      alter (λ d, StreamlinkPlugins.__setitem__ d key value) (_plugins self) σ
  | Delitem key =>
      alter (λ d, StreamlinkPlugins.__delitem__ d key) (_plugins self) σ
  | Update plugins =>
      alter (λ d, StreamlinkPlugins.update d plugins) (_plugins self) σ
  | Clear =>
      alter StreamlinkPlugins.clear (_plugins self) σ
  | LoadPath path =>
      alter (λ d,
               match StreamlinkPlugins.load_path iter_modules exec_module d path with
               | (Return (_, d'), _) => d'
               | (Raise _, _) => d
               end) (_plugins self) σ
  end.

Definition run_calls (self : object) (cs : list call) (σ : store) : store :=
  foldl (λ σ c, run_call self c σ) σ cs.

(** [get_loaded]: allocates the copy at a fresh address and returns the
    reference to it. *)
Definition get_loaded (self : object) (σ : store) : positive * store :=
  let copy := fresh (dom σ) in
  (copy, <[copy := StreamlinkPlugins.get_loaded (default [] (σ !! _plugins self))]> σ).
End store.
End Store.

(** ** The HTTP stream: [HTTPStream] *)

Module HTTPStream.
Section stream.
(** [World] is the state of what lies outside the stream object: the
    connection behind a response, the reader thread behind a wrapper.  A
    method call on such an object acts on the world and may raise. *)
Context {World : Type}.

Definition IO (A : Type) : Type := World → outcome A * World.

Definition io_ret {A} (a : A) : IO A := λ w, (Return a, w).

Definition io_bind {A B} (m : IO A) (k : A → IO B) : IO B :=
  λ w, match m w with
       | (Return a, w') => k a w'
       | (Raise e, w') => (Raise e, w')
       end.

(** [try: body / except: pass] *)
Definition try_except_pass (body : IO unit) : IO unit :=
  λ w, match body w with
       | (Return _, w') => (Return tt, w')
       | (Raise _, w') => (Return tt, w')
       end.

(** The value of the fields [res] and [fd]: [None], or an object, given by
    its [close] attribute when it has one. *)
Inductive value : Type :=
  | PyNone
  | Object (close_attr : option (IO unit)).

Record stream : Type := { buffered : bool; fd : value; res : value }.

(** [hasattr(v, "close")] *)
Definition hasattr_close (v : value) : bool :=
  match v with
  | Object (Some _) => true
  | _ => false
  end.

(** [v.close()] *)
Definition call_close (v : value) : IO unit :=
  match v with
  | Object (Some method) => method
  | _ => λ w, (Raise (AttributeError "close"), w)
  end.

(** The fields that [__init__] sets to [None]. *)
Definition __init__ (buffered : bool) : stream :=
  {| buffered := buffered; fd := PyNone; res := PyNone |}.

(** [request] is [self.session.http.request(...)], [iter_wrapper r] is
    [StreamIOIterWrapper(r.iter_content(self.chunk_size))] and
    [thread_wrapper fd] is [StreamIOThreadWrapper(self.session, fd, ...)]. *)
Context (request : IO value).
Context (iter_wrapper : value → IO value).
Context (thread_wrapper : value → IO value).

(** [open] assigns the fields as it goes, so a failure leaves the stream
    with the fields assigned so far. *)
Definition open (self : stream) (w : World) : outcome value * stream * World :=
  match request w with
  | (Raise e, w1) => (Raise e, self, w1)
  | (Return r, w1) =>
      let self := {| buffered := buffered self; fd := fd self; res := r |} in
      match iter_wrapper r w1 with
      | (Raise e, w2) => (Raise e, self, w2)
      | (Return f, w2) =>
          let self := {| buffered := buffered self; fd := f; res := res self |} in
          if buffered self then
            match thread_wrapper f w2 with
            | (Raise e, w3) => (Raise e, self, w3)
            | (Return t, w3) =>
                (Return t, {| buffered := buffered self; fd := t; res := res self |}, w3)
            end
          else (Return f, self, w2)
      end
  end.

Definition close (self : stream) : IO unit :=
  io_bind
    (if hasattr_close (res self)
     then try_except_pass (call_close (res self))
     else io_ret tt)
    (λ _,
       if hasattr_close (fd self)
       then try_except_pass (call_close (fd self))
       else io_ret tt).

(** [n] calls of [close] in a row; an exception would end the sequence. *)
Fixpoint close_times (n : nat) (self : stream) : IO unit :=
  match n with
  | 0 => io_ret tt
  | S n' => io_bind (close self) (λ _, close_times n' self)
  end.

(** The calls a user of the stream makes; [run] performs them in order and,
    like a caller that catches, goes on after a call that raised. *)
Inductive call : Type := Open | Close.

Definition run_call (c : call) (self : stream) (w : World) : stream * World :=
  match c with
  | Open => let '(_, self', w') := open self w in (self', w')
  | Close => (self, (close self w).2)
  end.

Definition run (cs : list call) (self : stream) (w : World) : stream * World :=
  foldl (λ sw c, run_call c sw.1 sw.2) (self, w) cs.
End stream.
End HTTPStream.

(** ** A concrete world, used to run the model

    Plugin classes are given by a class name and their matchers; a matcher
    is a URL prefix (the regular expression [^prefix]); a finder is the
    outcome of executing the module it finds. *)
Module Demo.
Record Plugin : Type := Class { cls : string; cls_matchers : option (list string) }.

Definition matchers (plugin : Plugin) : option (list string) := cls_matchers plugin.

Definition pattern_match (matcher url : string) : bool := String.prefix matcher url.

Definition Finder : Type := outcome (@StreamlinkPlugins.PyModule Plugin).

Definition exec_module (finder : Finder) (name : string) : Finder := finder.

Definition SiteA : Plugin := Class "SiteA" (Some ["https://sitea.example/"]).
Definition SiteB : Plugin := Class "SiteB" (Some ["https://siteb.example/"; "https://b.example/"]).
Definition HLS : Plugin := Class "HLSPlugin" (Some ["hls://"; "http://media.example/"]).
Definition DASH : Plugin := Class "MPEGDASH" (Some ["dash://"; "http://media.example/"]).
Definition HTTP : Plugin := Class "HTTPStreamPlugin" (Some ["httpstream://"; "http"]).

Definition defines (file : string) (plugin : Plugin) : Finder :=
  Return {| StreamlinkPlugins.__file__ := file;
            StreamlinkPlugins.__plugin__ := Some (StreamlinkPlugins.PluginClass plugin) |}.

(** The directories of the demo file system. *)
Definition iter_modules (path : string) : list (Finder * string * bool) :=
  if decide (path = "plugins") then
    [(defines "plugins/dash.py" DASH, "dash", false);
     (defines "plugins/hls.py" HLS, "hls", false);
     (defines "plugins/http.py" HTTP, "http", false);
     (defines "plugins/sitea.py" SiteA, "sitea", false)]
  else if decide (path = "fallbacks") then
    [(defines "fallbacks/dash.py" DASH, "dash", false);
     (defines "fallbacks/hls.py" HLS, "hls", false);
     (defines "fallbacks/http.py" HTTP, "http", false)]
  else if decide (path = "mixed") then
    [(Raise (ImportError "mixed/broken.py"), "broken", false);
     (Return {| StreamlinkPlugins.__file__ := "mixed/helper.py";
                StreamlinkPlugins.__plugin__ := None |}, "helper", false);
     (Return {| StreamlinkPlugins.__file__ := "mixed/other.py";
                StreamlinkPlugins.__plugin__ := Some StreamlinkPlugins.OtherClass |},
      "other", false);
     (defines "mixed/siteb.py" SiteB, "siteb", false)]
  else if decide (path = "syntaxerror") then
    [(defines "syntaxerror/sitea.py" SiteA, "sitea", false);
     (Raise (OtherError "SyntaxError"), "typo", false);
     (defines "syntaxerror/siteb.py" SiteB, "siteb", false)]
  else if decide (path = "sitea-only") then
    [(defines "sitea-only/sitea.py" SiteA, "sitea", false)]
  else [].

Definition match_url := StreamlinkPlugins.match_url matchers pattern_match.
Definition plugin_matches := StreamlinkPlugins.plugin_matches matchers pattern_match.
Definition _load_from_path := StreamlinkPlugins._load_from_path iter_modules exec_module.
Definition load_path := StreamlinkPlugins.load_path iter_modules exec_module.

(** A URL of site A, which the generic [http] plugin matches as well, and
    a media URL, which the three generic plugins match. *)
Definition url_sitea : string := "https://sitea.example/video/1".
Definition url_media : string := "http://media.example/live".

(** Registries and the plugins of two batches. *)
Definition registry_ab : list (string * Plugin) := [("sitea", SiteA); ("siteb", SiteB)].
Definition registry_b : list (string * Plugin) := [("siteb", SiteB)].
Definition registry_a : list (string * Plugin) := [("sitea", SiteA)].
Definition fallbacks : list (string * Plugin) :=
  [("hls", HLS); ("dash", DASH); ("http", HTTP)].
Definition batch : list (string * Plugin) := ("sitea", SiteA) :: fallbacks.

(** A registry object whose dictionary is at address 1, and a store
    holding that dictionary. *)
Definition session : Store.object := {| Store._plugins := 1%positive |}.
Definition store1 : gmap positive (list (string * Plugin)) :=
  {[ 1%positive := registry_ab ]}.
End Demo.

(** ** A concrete world for the stream

    The world is the list of the calls made so far, the latest first. *)
Module DemoStream.
Definition World : Type := list string.

Definition closing (call : string) (fails : bool) : @HTTPStream.value World :=
  HTTPStream.Object
    (Some (λ w, (if fails then Raise (OtherError "OSError") else Return tt, call :: w))).

(** A response whose [close] fails, and the two wrappers. *)
Definition response : @HTTPStream.value World := closing "res.close" true.
Definition iter_handle : @HTTPStream.value World := closing "iter.close" false.
Definition thread_handle : @HTTPStream.value World := closing "thread.close" false.

Definition request : @HTTPStream.IO World (@HTTPStream.value World) :=
  λ w, (Return response, "request" :: w).
Definition iter_wrapper (r : @HTTPStream.value World)
    : @HTTPStream.IO World (@HTTPStream.value World) :=
  λ w, (Return iter_handle, w).
Definition thread_wrapper (f : @HTTPStream.value World)
    : @HTTPStream.IO World (@HTTPStream.value World) :=
  λ w, (Return thread_handle, "thread.start" :: w).

Definition open := HTTPStream.open request iter_wrapper thread_wrapper.
End DemoStream.

(** * Properties *)

(** ** Dictionaries *)

Section dict_facts.
Context {V : Type}.
Implicit Types (d other : list (string * V)) (k : string) (v : V).

Lemma dict_get_None d k : dict_get d k = None ↔ k ∉ dict_keys d.
Proof.
  unfold dict_keys. induction d as [|[k' v'] d IH]; simpl.
  - split; [intros _; apply not_elem_of_nil | done].
  - rewrite not_elem_of_cons. case_decide; subst.
    + split; [done | intros [? _]; done].
    + rewrite IH. split; [by intros | by intros [_ ?]].
Qed.

Lemma dict_get_Some_elem d k v : dict_get d k = Some v → (k, v) ∈ d.
Proof.
  induction d as [|[k' v'] d IH]; simpl; [done|].
  case_decide; subst.
  - intros [= ->]. left.
  - intros. right. auto.
Qed.

Lemma dict_get_elem d k v : dict_ok d → (k, v) ∈ d → dict_get d k = Some v.
Proof.
  unfold dict_ok, dict_keys. induction d as [|[k' v'] d IH]; simpl.
  - intros _ H. by apply elem_of_nil in H.
  - rewrite NoDup_cons, elem_of_cons. intros [Hk Hd] [Heq|Hin].
    + injection Heq as <- <-. by rewrite decide_True.
    + rewrite decide_False; [auto|]. intros ->. apply Hk.
      apply list_elem_of_fmap. by exists (k, v).
Qed.

Lemma dict_get_Some_split d k v :
  dict_get d k = Some v →
  ∃ d1 d2, d = d1 ++ (k, v) :: d2 ∧ k ∉ dict_keys d1.
Proof.
  unfold dict_keys. induction d as [|[k' v'] d IH]; simpl; [done|].
  case_decide; subst.
  - intros [= ->]. exists [], d. split; [done | apply not_elem_of_nil].
  - intros (d1 & d2 & -> & Hk)%IH. exists ((k', v') :: d1), d2.
    split; [done|]. rewrite fmap_cons, not_elem_of_cons. done.
Qed.

Lemma dict_get_app d1 d2 k :
  dict_get (d1 ++ d2) k =
    match dict_get d1 k with Some v => Some v | None => dict_get d2 k end.
Proof.
  induction d1 as [|[k' v'] d1 IH]; simpl; [done|]. by case_decide.
Qed.

Lemma dict_setitem_fresh d k v :
  k ∉ dict_keys d → dict_setitem d k v = d ++ [(k, v)].
Proof.
  unfold dict_keys. induction d as [|[k' v'] d IH]; simpl; [done|].
  rewrite not_elem_of_cons. intros [Hne Hk].
  rewrite decide_False by done. by rewrite IH.
Qed.

Lemma dict_setitem_present d1 d2 k v0 v :
  k ∉ dict_keys d1 →
  dict_setitem (d1 ++ (k, v0) :: d2) k v = d1 ++ (k, v) :: d2.
Proof.
  unfold dict_keys. induction d1 as [|[k' v'] d1 IH]; simpl.
  - intros _. by rewrite decide_True.
  - rewrite not_elem_of_cons. intros [Hne Hk].
    rewrite decide_False by done. by rewrite IH.
Qed.

Lemma dict_setitem_keys d k v :
  dict_keys (dict_setitem d k v) =
    if decide (k ∈ dict_keys d) then dict_keys d else dict_keys d ++ [k].
Proof.
  unfold dict_keys. induction d as [|[k' v'] d IH].
  - rewrite decide_False; [done | apply not_elem_of_nil].
  - cbn [dict_setitem]. rewrite fmap_cons. cbn [fst].
    destruct (decide (k' = k)) as [->|Hne].
    + rewrite decide_True; [done | left].
    + rewrite fmap_cons, IH. cbn [fst].
      destruct (decide (k ∈ d.*1)) as [Hin|Hin].
      * rewrite decide_True; [done | by right].
      * rewrite decide_False; [done|]. rewrite not_elem_of_cons. done.
Qed.

Lemma dict_setitem_ok d k v : dict_ok d → dict_ok (dict_setitem d k v).
Proof.
  unfold dict_ok. rewrite dict_setitem_keys. case_decide; [done|].
  intros Hd. apply NoDup_app. split_and!; [done | | apply NoDup_singleton].
  intros x Hx ->%list_elem_of_singleton. done.
Qed.

Lemma dict_get_setitem d k v k' :
  dict_get (dict_setitem d k v) k' =
    if decide (k = k') then Some v else dict_get d k'.
Proof.
  induction d as [|[k0 v0] d IH]; simpl.
  - by repeat case_decide.
  - destruct (decide (k0 = k)) as [->|Hne]; simpl.
    + by repeat case_decide.
    + rewrite IH. repeat case_decide; congruence.
Qed.

Lemma dict_update_nil d : dict_update d [] = d.
Proof. done. Qed.

Lemma dict_update_cons d k v other :
  dict_update d ((k, v) :: other) = dict_update (dict_setitem d k v) other.
Proof. done. Qed.

Lemma dict_update_ok d other : dict_ok d → dict_ok (dict_update d other).
Proof.
  revert d. induction other as [|[k v] other IH]; intros d Hd; [done|].
  rewrite dict_update_cons. apply IH. by apply dict_setitem_ok.
Qed.

Lemma dict_get_update d other k :
  dict_ok other →
  dict_get (dict_update d other) k =
    match dict_get other k with Some v => Some v | None => dict_get d k end.
Proof.
  revert d. induction other as [|[k0 v0] other IH]; intros d Hok; [done|].
  rewrite dict_update_cons. unfold dict_ok, dict_keys in Hok. simpl in Hok.
  apply NoDup_cons in Hok as [Hk0 Hok]. rewrite IH by done. simpl.
  rewrite dict_get_setitem.
  destruct (decide (k0 = k)) as [->|Hne]; [|done].
  apply dict_get_None in Hk0. by rewrite Hk0.
Qed.

Lemma dict_pop_keys d k : dict_ok d → k ∉ dict_keys (dict_pop d k).
Proof.
  unfold dict_ok, dict_keys. induction d as [|[k' v'] d IH]; simpl.
  - intros _. apply not_elem_of_nil.
  - rewrite NoDup_cons. intros [Hk Hd]. case_decide; subst; [done|].
    simpl. rewrite not_elem_of_cons. auto.
Qed.

Lemma dict_pop_sublist d k : dict_pop d k `sublist_of` d.
Proof.
  induction d as [|[k' v'] d IH]; simpl; [done|].
  case_decide; [by apply sublist_cons | by apply sublist_skip].
Qed.

Lemma dict_pop_ok d k : dict_ok d → dict_ok (dict_pop d k).
Proof.
  unfold dict_ok, dict_keys. intros Hd.
  apply (sublist_NoDup _ (d.*1)); [done|]. apply fmap_sublist, dict_pop_sublist.
Qed.
Lemma dict_update_app d other1 other2 :
  dict_update d (other1 ++ other2) = dict_update (dict_update d other1) other2.
Proof. unfold dict_update. by rewrite foldl_app. Qed.

Lemma dict_update_keys d other k :
  k ∈ dict_keys (dict_update d other) ↔ k ∈ dict_keys d ∨ k ∈ dict_keys other.
Proof.
  revert d. induction other as [|[k0 v0] other IH]; intros d.
  - rewrite dict_update_nil.
    assert (dict_keys (@nil (string * V)) = []) as -> by done.
    rewrite elem_of_nil. tauto.
  - rewrite dict_update_cons, IH, dict_setitem_keys.
    assert (dict_keys ((k0, v0) :: other) = k0 :: dict_keys other) as -> by done.
    rewrite elem_of_cons. case_decide.
    + split; [tauto|]. intros [?|[->|?]]; tauto.
    + rewrite elem_of_app, list_elem_of_singleton. tauto.
Qed.

Lemma dict_update_fresh d other :
  dict_ok other →
  (∀ k, k ∈ dict_keys other → k ∉ dict_keys d) →
  dict_update d other = d ++ other.
Proof.
  revert d. induction other as [|[k0 v0] other IH]; intros d Hok Hfresh.
  - by rewrite dict_update_nil, app_nil_r.
  - unfold dict_ok, dict_keys in Hok. rewrite fmap_cons in Hok.
    apply NoDup_cons in Hok as [Hk0 Hok].
    rewrite dict_update_cons, dict_setitem_fresh.
    2: { apply Hfresh. unfold dict_keys. rewrite fmap_cons. left. }
    rewrite IH; [by rewrite <-app_assoc | done |].
    intros k Hk. unfold dict_keys. rewrite fmap_app, elem_of_app.
    intros [Hd|Hk']; [|apply list_elem_of_singleton in Hk'; simpl in Hk'; by subst].
    eapply Hfresh; [|done]. unfold dict_keys. rewrite fmap_cons. by right.
Qed.
End dict_facts.

(** ** Resolution of a URL *)

Section match_url_facts.
Import StreamlinkPlugins.
Context {Plugin Matcher : Type}.
Context (matchers : Plugin → option (list Matcher)).
Context (pattern_match : Matcher → string → bool).
Implicit Types (self : list (string * Plugin)) (url name : string).

Local Abbreviation plugin_matches := (plugin_matches matchers pattern_match).
Local Abbreviation first_match := (first_match matchers pattern_match).
Local Abbreviation match_url := (match_url matchers pattern_match).
Local Abbreviation match_plugins := (match_plugins pattern_match).
Local Abbreviation match_matchers := (match_matchers pattern_match).
Local Abbreviation iter_matchers := (iter_matchers matchers).

Lemma match_matchers_existsb self name url ms next :
  match_matchers self name url ms next =
    if existsb (λ matcher, pattern_match matcher url) ms
    then (match dict_get self name with
          | Some plugin => Return (Some (name, plugin))
          | None => Raise (KeyError name)
          end, [found_record name url])
    else next.
Proof.
  induction ms as [|m ms IH]; simpl; [done|].
  destruct (pattern_match m url); simpl; [|done].
  unfold lift, dict_getitem. by destruct (dict_get self name).
Qed.

(** The two loops compute [first_match] on any part of the registry they
    are started on; the plugin returned is the one found under the name. *)
Lemma match_plugins_first_match self url (part : list (string * Plugin)) :
  match_plugins self url (iter_matchers part) =
    match first_match url part with
    | Some (name, _) =>
        (match dict_get self name with
         | Some plugin => Return (Some (name, plugin))
         | None => Raise (KeyError name)
         end, [found_record name url])
    | None => (Return None, [])
    end.
Proof.
  induction part as [|[name plugin] part IH]; [done|].
  unfold StreamlinkPlugins.iter_matchers, StreamlinkPlugins.plugin_matches in *.
  cbn [omap list_omap StreamlinkPlugins.first_match].
  unfold StreamlinkPlugins.plugin_matches.
  destruct (matchers plugin) as [[|m ms]|]; cbn [existsb]; [done| |done].
  cbn [StreamlinkPlugins.match_plugins].
  rewrite match_matchers_existsb. cbn [existsb].
  by destruct (pattern_match m url || existsb _ ms).
Qed.

Lemma first_match_None url self :
  first_match url self = None ↔
  ∀ name plugin, (name, plugin) ∈ self → plugin_matches plugin url = false.
Proof.
  induction self as [|[n p] self IH]; simpl.
  - split; [|done]. intros _ ?? H. by apply elem_of_nil in H.
  - destruct (plugin_matches p url) eqn:Hp.
    + split; [done|]. intros H. rewrite (H n p) in Hp; [done | left].
    + rewrite IH. split.
      * intros H n' p' Hin. apply elem_of_cons in Hin as [[= -> ->]|Hin]; eauto.
      * intros H ???. eapply H. by right.
Qed.

Lemma first_match_Some url self name plugin :
  first_match url self = Some (name, plugin) ↔
  ∃ before after,
    self = before ++ (name, plugin) :: after ∧
    plugin_matches plugin url = true ∧
    ∀ n p, (n, p) ∈ before → plugin_matches p url = false.
Proof.
  induction self as [|[n p] self IH]; simpl.
  - split; [done|]. by intros ([|??] & ? & ? & _).
  - destruct (plugin_matches p url) eqn:Hp.
    + split.
      * intros [= -> ->]. exists [], self. split_and!; [done..|].
        intros ?? H. by apply elem_of_nil in H.
      * intros ([|[n' p'] before] & after & Heq & Hm & Hbefore).
        -- by injection Heq as -> -> _.
        -- injection Heq as -> -> _.
           rewrite (Hbefore n' p') in Hp; [done | left].
    + rewrite IH. split.
      * intros (before & after & -> & Hm & Hbefore).
        exists ((n, p) :: before), after. split_and!; [done..|].
        intros n' p' Hin. apply elem_of_cons in Hin as [[= -> ->]|Hin]; eauto.
      * intros ([|[n' p'] before] & after & Heq & Hm & Hbefore).
        -- injection Heq as -> -> _. congruence.
        -- injection Heq as -> -> ->. exists before, after.
           split_and!; [done..|]. intros ???. eapply Hbefore. by right.
Qed.

Lemma first_match_elem url self name plugin :
  first_match url self = Some (name, plugin) →
  (name, plugin) ∈ self ∧ plugin_matches plugin url = true.
Proof.
  intros (before & after & -> & Hm & _)%first_match_Some. split; [|done].
  apply elem_of_app. right. left.
Qed.

Lemma first_match_app url self later :
  first_match url (self ++ later) =
    match first_match url self with
    | Some found => Some found
    | None => first_match url later
    end.
Proof.
  induction self as [|[n p] self IH]; simpl; [done|].
  by destruct (plugin_matches p url).
Qed.

(** On a well-formed dictionary the lookup by name gives the plugin of the
    item that matched. *)
Lemma match_url_first_match_eq self url :
  dict_ok self →
  match_url self url =
    match first_match url self with
    | Some (name, plugin) => (Return (Some (name, plugin)), [found_record name url])
    | None => (Return None, [])
    end.
Proof.
  intros Hok. unfold StreamlinkPlugins.match_url.
  rewrite match_plugins_first_match.
  destruct (first_match url self) as [[name plugin]|] eqn:Hfirst; [|done].
  apply first_match_elem in Hfirst as [Hin _].
  by rewrite (dict_get_elem _ _ _ Hok Hin).
Qed.

Lemma plugin_matches_first_pattern plugin url :
  plugin_matches plugin url = true ↔
  ∃ ms1 matcher ms2,
    matchers plugin = Some (ms1 ++ matcher :: ms2) ∧
    pattern_match matcher url = true ∧
    ∀ m, m ∈ ms1 → pattern_match m url = false.
Proof.
  unfold StreamlinkPlugins.plugin_matches.
  destruct (matchers plugin) as [ms|]; [|split; [done | by intros (?&?&?&?&_)]].
  split.
  - intros Hex. induction ms as [|m ms IH]; simpl in Hex; [done|].
    destruct (pattern_match m url) eqn:Hm.
    + exists [], m, ms. split_and!; [done..|]. intros ? H. by apply elem_of_nil in H.
    + destruct (IH Hex) as (ms1 & m' & ms2 & [= ->] & Hm' & Hms1).
      exists (m :: ms1), m', ms2. split_and!; [done..|].
      intros m0 Hin. apply elem_of_cons in Hin as [->|Hin]; auto.
  - intros (ms1 & m & ms2 & [= ->] & Hm & _).
    apply existsb_exists. exists m. split; [|done].
    apply list_elem_of_In, elem_of_app. right. left.
Qed.

(** C3. Resolution returns at most one pair, by its type.  The plugin it
    returns is the first one, in the iteration order of the registry, whose
    matcher set has a matching pattern.  The loop over its patterns, in
    declaration order, returns at the first matching one, whatever patterns
    and plugins come after it; and plugins registered later do not change
    the result. *)
Theorem match_url_returns_first_match self url :
  dict_ok self →
  ∃ result log,
    match_url self url = (Return result, log) ∧
    match result with
    | None =>
        ∀ name plugin, (name, plugin) ∈ self → plugin_matches plugin url = false
    | Some (name, plugin) =>
        (∃ before after,
            self = before ++ (name, plugin) :: after ∧
            ∀ n p, (n, p) ∈ before → plugin_matches p url = false) ∧
        (∃ ms1 matcher ms2,
            matchers plugin = Some (ms1 ++ matcher :: ms2) ∧
            pattern_match matcher url = true ∧
            (∀ m, m ∈ ms1 → pattern_match m url = false) ∧
            ∀ ms2' next,
              match_matchers self name url (ms1 ++ matcher :: ms2') next
              = (Return result, log)) ∧
        (∀ later, dict_ok (self ++ later) →
            match_url (self ++ later) url = (Return result, log))
    end.
Proof.
  intros Hok. rewrite match_url_first_match_eq by done.
  destruct (first_match url self) as [[name plugin]|] eqn:Hfirst.
  - eexists _, _. split; [done|].
    pose proof Hfirst as (before & after & Hself & Hm & Hbefore)%first_match_Some.
    split_and!.
    + by exists before, after.
    + apply plugin_matches_first_pattern in Hm as (ms1 & m & ms2 & Hms & Hmatch & Hms1).
      exists ms1, m, ms2. split_and!; [done..|]. intros ms2' next.
      rewrite match_matchers_existsb, existsb_app. simpl.
      rewrite Hmatch, orb_true_r.
      rewrite (dict_get_elem self name plugin); [done..|].
      rewrite Hself. apply elem_of_app. right. left.
    + intros later Hok'. rewrite match_url_first_match_eq by done.
      by rewrite first_match_app, Hfirst.
  - eexists _, _. split; [done|]. cbn beta iota. by apply first_match_None.
Qed.

(** C4. Resolution never raises, whatever the registry holds and whatever
    the URL, and it returns [None] when no registered plugin has a
    matching pattern. *)
Theorem match_url_never_raises self url :
  ∃ result log,
    match_url self url = (Return result, log) ∧
    ((∀ name plugin, (name, plugin) ∈ self → plugin_matches plugin url = false) →
     result = None ∧ log = []).
Proof.
  unfold StreamlinkPlugins.match_url. rewrite match_plugins_first_match.
  destruct (first_match url self) as [[name plugin]|] eqn:Hfirst.
  - apply first_match_elem in Hfirst as [Hin Hm].
    destruct (dict_get self name) as [found|] eqn:Hget.
    + eexists _, _. split; [done|]. intros Hnone.
      rewrite (Hnone _ _ Hin) in Hm. done.
    + apply dict_get_None in Hget. destruct Hget.
      apply list_elem_of_fmap. by exists (name, plugin).
  - by eexists _, _.
Qed.

(** C7. Assigning a plugin to a registered name replaces the plugin held
    under that name: the names and their order stay, the other names keep
    their plugins, no name occurs twice.  A URL that no plugin under
    another name matches then resolves to the new plugin when its patterns
    match, and to [None] otherwise. *)
Theorem setitem_overrides self key old new url :
  dict_ok self →
  dict_get self key = Some old →
  let self' := __setitem__ self key new in
  dict_ok self' ∧
  dict_keys self' = dict_keys self ∧
  dict_get self' key = Some new ∧
  (∀ name, name ≠ key → dict_get self' name = dict_get self name) ∧
  ((∀ name plugin, (name, plugin) ∈ self → name ≠ key →
       plugin_matches plugin url = false) →
   match_url self' url =
     if plugin_matches new url
     then (Return (Some (key, new)), [found_record key url])
     else (Return None, [])).
Proof.
  intros Hok Hget. simpl. unfold StreamlinkPlugins.__setitem__.
  assert (dict_ok (dict_setitem self key new)) as Hok'
    by by apply dict_setitem_ok.
  split_and!; [done| | | |].
  - rewrite dict_setitem_keys. rewrite decide_True; [done|].
    apply dict_get_Some_elem in Hget. apply list_elem_of_fmap.
    by exists (key, old).
  - rewrite dict_get_setitem. by rewrite decide_True.
  - intros name Hne. rewrite dict_get_setitem. by rewrite decide_False.
  - intros Hothers. rewrite match_url_first_match_eq by done.
    destruct (dict_get_Some_split _ _ _ Hget) as (d1 & d2 & -> & Hfresh).
    rewrite dict_setitem_present by done.
    assert (∀ part, (∀ name plugin, (name, plugin) ∈ part →
               (name, plugin) ∈ d1 ++ (key, old) :: d2 ∧ name ≠ key) →
             first_match url part = None) as Hpart.
    { intros part Hpart. apply first_match_None. intros name plugin Hin.
      destruct (Hpart _ _ Hin). eauto. }
    assert (∀ name plugin, (name, plugin) ∈ d2 → name ≠ key) as Hd2.
    { intros name plugin Hin ->. unfold dict_ok, dict_keys in Hok.
      rewrite fmap_app, fmap_cons in Hok.
      apply NoDup_app in Hok as (_ & _ & Hnd). apply NoDup_cons in Hnd as [Hk _].
      apply Hk. apply list_elem_of_fmap. by exists (key, plugin). }
    rewrite first_match_app, Hpart; cycle 1.
    { intros name plugin Hin. split; [apply elem_of_app; by left|].
      intros ->. apply Hfresh. apply list_elem_of_fmap. by exists (key, plugin). }
    cbn [StreamlinkPlugins.first_match].
    destruct (plugin_matches new url); [done|].
    rewrite Hpart; [done|]. intros name plugin Hin. split; [|by eapply Hd2].
    apply elem_of_app. right. by right.
Qed.
End match_url_facts.

(** ** Names of the loaded plugins *)

Section get_names_facts.
Import StreamlinkPlugins.
Context {Plugin : Type}.
Implicit Types (self : list (string * Plugin)) (name : string).

Lemma contains_keys self name :
  __contains__ self name = true ↔ name ∈ dict_keys self.
Proof.
  unfold __contains__, dict_contains.
  destruct (dict_get self name) eqn:Hget.
  - split; [intros _|done]. destruct (decide (name ∈ dict_keys self)) as [|Hn]; [done|].
    apply dict_get_None in Hn. congruence.
  - apply dict_get_None in Hget. split; [done | by intros ?%Hget].
Qed.

(** C10. The names come in ascending lexicographic order, each registered
    name once and no other name, whatever the order of registration. *)
Theorem get_names_sorted self :
  dict_ok self →
  StronglySorted String.le (get_names self) ∧
  NoDup (get_names self) ∧
  (∀ name, name ∈ get_names self ↔ __contains__ self name = true) ∧
  (∀ other : list (string * Plugin),
      dict_keys other ≡ₚ dict_keys self → get_names other = get_names self).
Proof.
  intros Hok. unfold get_names. split_and!.
  - apply StronglySorted_merge_sort; apply _.
  - by rewrite merge_sort_Permutation.
  - intros name. by rewrite merge_sort_Permutation, contains_keys.
  - intros other Hperm. apply (Sorted_unique String.le).
    + apply Sorted_merge_sort; apply _.
    + apply Sorted_merge_sort; apply _.
    + by rewrite !merge_sort_Permutation.
Qed.
End get_names_facts.

(** ** The monad *)

Lemma bind_Return_l {A B} (a : A) (k : A → M B) : bind (Return a, []) k = k a.
Proof. unfold bind. by destruct (k a). Qed.

Lemma bind_Return_log {A B} (a : A) (l : list record) (k : A → M B) :
  bind (Return a, l) k = ((k a).1, l ++ (k a).2).
Proof. unfold bind. by destruct (k a). Qed.

Lemma bind_Raise {A B} (e : exn) (l : list record) (k : A → M B) :
  bind (Raise e, l) k = (Raise e, l).
Proof. done. Qed.

Lemma bind_Return_inv {A B} (m : M A) (k : A → M B) (b : B) (log : list record) :
  bind m k = (Return b, log) →
  ∃ a l1 l2, m = (Return a, l1) ∧ k a = (Return b, l2) ∧ log = l1 ++ l2.
Proof.
  destruct m as [[a|e] l1]; [|done]. rewrite bind_Return_log.
  destruct (k a) as [r l2] eqn:Hk. intros [= -> <-]. by exists a, l1, l2.
Qed.

(** ** Loading a batch of modules *)

Section load_facts.
Import StreamlinkPlugins.
Context {Plugin Finder : Type}.
Context (iter_modules : string → list (Finder * string * bool)).
Context (exec_module : Finder → string → outcome (@PyModule Plugin)).
Implicit Types (self plugins tDash tHls tHttp : list (string * Plugin)).
Implicit Types (name path : string) (mods : list (Finder * string * bool)).

Local Abbreviation _load_plugin_from_finder := (_load_plugin_from_finder exec_module).
Local Abbreviation load_modules := (load_modules exec_module).
Local Abbreviation _load_from_path := (_load_from_path iter_modules exec_module).
Local Abbreviation load_path := (load_path iter_modules exec_module).
Local Abbreviation exported := (exported exec_module).
Local Abbreviation exports := (exports exec_module).
Local Abbreviation benign := (benign exec_module).
Local Abbreviation failure_record := (failure_record exec_module).
Local Abbreviation held := (@held Plugin).
Local Abbreviation module_names := (@module_names Finder).

(** What [_load_plugin_from_finder] returns, when it returns. *)
Lemma load_plugin_Return name finder ispkg lookup l :
  _load_plugin_from_finder name finder = (Return lookup, l) →
  match lookup with
  | None => exports (finder, name, ispkg) = false
  | Some (_, plugin) => exported finder name = Some plugin ∧ l = []
  end.
Proof.
  unfold StreamlinkPlugins._load_plugin_from_finder, StreamlinkPlugins.exports,
    StreamlinkPlugins.exported. simpl.
  destruct (exec_module finder _) as [mod_|[]]; try done.
  - destruct (__plugin__ mod_) as [[]|]; try done; by intros [= <- <-].
  - by intros [= <- <-].
Qed.

Local Abbreviation shape := (@loop_invariant Plugin).

Lemma holds_only_setitem name (d : list (string * Plugin)) plugin :
  holds_only name d → holds_only name (dict_setitem d name plugin).
Proof.
  intros [->|[old ->]]; right; exists plugin; simpl; [done|].
  by rewrite decide_True.
Qed.

Lemma setitem_nonempty (d : list (string * Plugin)) name plugin :
  dict_setitem d name plugin ≠ [].
Proof. destruct d as [|[??] ?]; simpl; [done|]. by case_decide. Qed.

Lemma load_modules_Return mods plugins tDash tHls tHttp
    plugins' tDash' tHls' tHttp' log :
  load_modules mods plugins tDash tHls tHttp
    = (Return (plugins', tDash', tHls', tHttp'), log) →
  shape plugins tDash tHls tHttp →
  shape plugins' tDash' tHls' tHttp' ∧
  (plugins' ++ tHls' ++ tDash' ++ tHttp' = [] ↔
     plugins ++ tHls ++ tDash ++ tHttp = [] ∧
     ∀ entry, entry ∈ mods → exports entry = false).
Proof.
  revert plugins tDash tHls tHttp log.
  induction mods as [|[[finder name] ispkg] mods IH];
    intros plugins tDash tHls tHttp log Hrun Hshape.
  { injection Hrun as <- <- <- <- _. split; [done|].
    split; [|by intros [? _]]. intros ?. split; [done|].
    intros ? Hin. by apply elem_of_nil in Hin. }
  cbn [StreamlinkPlugins.load_modules] in Hrun.
  apply bind_Return_inv in Hrun as (lookup & l1 & l2 & Hlookup & Hrun & ->).
  apply (load_plugin_Return _ _ ispkg) in Hlookup.
  destruct lookup as [[mod_ plugin]|].
  - destruct Hlookup as [Hexp ->].
    assert (exports (finder, name, ispkg) = true) as Hexports.
    { unfold StreamlinkPlugins.exports. simpl. by rewrite Hexp. }
    assert (∀ P : Prop, ¬ (P ∧ ∀ entry,
              entry ∈ (finder, name, ispkg) :: mods → exports entry = false))
      as Hsome.
    { intros P [_ Hall]. rewrite Hall in Hexports; [done | left]. }
    destruct Hshape as (Hok & Hspec & Hdash & Hhls & Hhttp).
    repeat case_decide; subst.
    + apply IH in Hrun as [Hshape' Hempty].
      2: { split_and!; auto using holds_only_setitem. }
      split; [done|]. rewrite Hempty. split; [|by intros ?%Hsome].
      intros [Hnil _]. apply app_eq_nil in Hnil as [_ Hnil].
      apply app_eq_nil in Hnil as [_ Hnil]. apply app_eq_nil in Hnil as [Hnil _].
      by apply setitem_nonempty in Hnil.
    + apply IH in Hrun as [Hshape' Hempty].
      2: { split_and!; auto using holds_only_setitem. }
      split; [done|]. rewrite Hempty. split; [|by intros ?%Hsome].
      intros [Hnil _]. apply app_eq_nil in Hnil as [_ Hnil].
      apply app_eq_nil in Hnil as [Hnil _].
      by apply setitem_nonempty in Hnil.
    + apply IH in Hrun as [Hshape' Hempty].
      2: { split_and!; auto using holds_only_setitem. }
      split; [done|]. rewrite Hempty. split; [|by intros ?%Hsome].
      intros [Hnil _]. apply app_eq_nil in Hnil as [_ Hnil].
      apply app_eq_nil in Hnil as [_ Hnil]. apply app_eq_nil in Hnil as [_ Hnil].
      by apply setitem_nonempty in Hnil.
    + apply bind_Return_inv in Hrun as ([] & l3 & l4 & _ & Hrun & _).
      apply IH in Hrun as [Hshape' Hempty].
      2: { split_and!; auto using dict_setitem_ok.
           intros n. rewrite dict_setitem_keys. case_decide; [by auto|].
           rewrite elem_of_app, list_elem_of_singleton. intros [?| ->]; [by auto|].
           unfold is_fallback. apply bool_decide_eq_false.
           rewrite !elem_of_cons. intros [?|[?|[?|?%elem_of_nil]]]; done. }
      split; [done|]. rewrite Hempty. split; [|by intros ?%Hsome].
      intros [Hnil _]. apply app_eq_nil in Hnil as [Hnil _].
      by apply setitem_nonempty in Hnil.
  - apply IH in Hrun as [Hshape' Hempty]; [|done].
    split; [done|]. rewrite Hempty. split.
    + intros [Hnil Hall]. split; [done|].
      intros entry Hin. apply elem_of_cons in Hin as [->|Hin]; auto.
    + intros [Hnil Hall]. split; [done|]. intros entry Hin. apply Hall. by right.
Qed.

Lemma update_holds_only name (d t : list (string * Plugin)) :
  holds_only name t → name ∉ dict_keys d →
  (if dict_bool t then dict_update d t else d) = d ++ t.
Proof.
  intros [->|[plugin ->]] Hfresh; simpl; [by rewrite app_nil_r|].
  unfold dict_update. simpl. by apply dict_setitem_fresh.
Qed.

Lemma holds_only_keys name (t : list (string * Plugin)) k :
  holds_only name t → k ∈ dict_keys t → k = name.
Proof.
  intros [->|[plugin ->]]; unfold dict_keys; simpl.
  - by intros ?%elem_of_nil.
  - by intros ->%list_elem_of_singleton.
Qed.

Lemma fallback_not_specific (d : list (string * Plugin)) name :
  (∀ n, n ∈ dict_keys d → is_fallback n = false) →
  is_fallback name = true → name ∉ dict_keys d.
Proof. intros Hspec Hfb Hin. apply Hspec in Hin. congruence. Qed.

(** A batch load that returns has run the loop from four empty dictionaries
    and put [hls], [dash] and [http] after the others. *)
Lemma load_from_path_inv path plugins log :
  _load_from_path path = (Return plugins, log) →
  ∃ specific tDash tHls tHttp,
    load_modules (iter_modules path) [] [] [] []
      = (Return (specific, tDash, tHls, tHttp), log) ∧
    shape specific tDash tHls tHttp ∧
    plugins = specific ++ tHls ++ tDash ++ tHttp.
Proof.
  unfold StreamlinkPlugins._load_from_path. intros Hrun.
  apply bind_Return_inv in Hrun
    as ([[[specific tDash] tHls] tHttp] & l1 & l2 & Hloop & Hret & ->).
  pose proof Hloop as [Hshape _]%load_modules_Return.
  2: { split_and!; [apply NoDup_nil_2 | by intros ? ?%elem_of_nil | by left..]. }
  pose proof Hshape as (Hok & Hspec & Hdash & Hhls & Hhttp).
  injection Hret as <- <-. rewrite app_nil_r.
  exists specific, tDash, tHls, tHttp. split_and!; [done..|].
  rewrite (update_holds_only "hls" specific tHls);
    [|done|by eapply fallback_not_specific].
  rewrite (update_holds_only "dash" (specific ++ tHls) tDash); [|done|]; cycle 1.
  { unfold dict_keys. rewrite fmap_app, elem_of_app.
    intros [Hin|Hin]; [by apply Hspec in Hin|].
    by apply (holds_only_keys _ _ _ Hhls) in Hin. }
  rewrite (update_holds_only "http" ((specific ++ tHls) ++ tDash) tHttp);
    [|done|]; cycle 1.
  { unfold dict_keys. rewrite !fmap_app, !elem_of_app.
    intros [[Hin|Hin]|Hin]; [by apply Hspec in Hin| |].
    - by apply (holds_only_keys _ _ _ Hhls) in Hin.
    - by apply (holds_only_keys _ _ _ Hdash) in Hin. }
  by rewrite <-!app_assoc.
Qed.

(** A batch load that returns leaves the plugins in [batch_order], as a
    well-formed dictionary, and returns none only if no module of the batch
    exports a plugin class. *)
Lemma load_from_path_Return path plugins log :
  _load_from_path path = (Return plugins, log) →
  batch_order plugins ∧ dict_ok plugins ∧
  (plugins = [] ↔ ∀ entry, entry ∈ iter_modules path → exports entry = false).
Proof.
  intros (specific & tDash & tHls & tHttp & Hloop & Hshape & ->)%load_from_path_inv.
  apply load_modules_Return in Hloop as [_ Hempty].
  2: { split_and!; [apply NoDup_nil_2 | by intros ? ?%elem_of_nil | by left..]. }
  destruct Hshape as (Hok & Hspec & Hdash & Hhls & Hhttp). split_and!.
  - by exists specific, tHls, tDash, tHttp.
  - unfold dict_ok, dict_keys. rewrite !fmap_app.
    apply NoDup_app. split_and!; [done| |].
    { intros k Hk. rewrite !elem_of_app. apply Hspec in Hk.
      intros [Hin|[Hin|Hin]];
        [apply (holds_only_keys _ _ _ Hhls) in Hin
        |apply (holds_only_keys _ _ _ Hdash) in Hin
        |apply (holds_only_keys _ _ _ Hhttp) in Hin]; subst; by vm_compute in Hk. }
    destruct Hhls as [->|[? ->]], Hdash as [->|[? ->]], Hhttp as [->|[? ->]];
      simpl; apply (bool_decide_unpack _); by vm_compute.
  - rewrite Hempty. simpl. split; [by intros [_ ?] | by intros ?].
Qed.

(** Each plugin that the loop holds at the end was held at the start or is
    exported by a module of that name; with distinct module names, what a
    module exports is held under its name. *)
Lemma load_modules_held mods plugins tDash tHls tHttp
    plugins' tDash' tHls' tHttp' log :
  load_modules mods plugins tDash tHls tHttp
    = (Return (plugins', tDash', tHls', tHttp'), log) →
  (∀ name, name ∉ module_names mods →
     held plugins' tDash' tHls' tHttp' name = held plugins tDash tHls tHttp name) ∧
  (∀ name plugin, held plugins' tDash' tHls' tHttp' name = Some plugin →
     held plugins tDash tHls tHttp name = Some plugin ∨
     ∃ finder ispkg, (finder, name, ispkg) ∈ mods ∧ exported finder name = Some plugin) ∧
  (NoDup (module_names mods) →
   ∀ finder name ispkg plugin,
     (finder, name, ispkg) ∈ mods → exported finder name = Some plugin →
     held plugins' tDash' tHls' tHttp' name = Some plugin).
Proof.
  revert plugins tDash tHls tHttp log.
  induction mods as [|[[finder0 name0] ispkg0] mods IH];
    intros plugins tDash tHls tHttp log Hrun.
  { injection Hrun as <- <- <- <- _. split_and!; [done|by left|].
    intros _ ???? Hin. by apply elem_of_nil in Hin. }
  cbn [StreamlinkPlugins.load_modules] in Hrun.
  apply bind_Return_inv in Hrun as (lookup & l1 & l2 & Hlookup & Hrun & ->).
  apply (load_plugin_Return _ _ ispkg0) in Hlookup.
  unfold StreamlinkPlugins.module_names. rewrite fmap_cons. simpl.
  fold (StreamlinkPlugins.module_names mods).
  destruct lookup as [[mod_ plugin0]|].
  - destruct Hlookup as [Hexp ->].
    assert (∃ p1 d1 h1 t1 l3,
              load_modules mods p1 d1 h1 t1
                = (Return (plugins', tDash', tHls', tHttp'), l3) ∧
              ∀ name, held p1 d1 h1 t1 name =
                if decide (name0 = name) then Some plugin0
                else held plugins tDash tHls tHttp name)
      as (p1 & d1 & h1 & t1 & l3 & Hrest & Hstep).
    { unfold StreamlinkPlugins.held.
      destruct (decide (name0 = "dash")) as [->|Hd];
        [|destruct (decide (name0 = "hls")) as [->|Hh];
          [|destruct (decide (name0 = "http")) as [->|Ht]]].
      - eexists _, _, _, _, _. split; [exact Hrun|]. intros name.
        rewrite dict_get_setitem. by repeat case_decide; subst.
      - eexists _, _, _, _, _. split; [exact Hrun|]. intros name.
        rewrite dict_get_setitem. by repeat case_decide; subst.
      - eexists _, _, _, _, _. split; [exact Hrun|]. intros name.
        rewrite dict_get_setitem. by repeat case_decide; subst.
      - apply bind_Return_inv in Hrun as ([] & l3 & l4 & _ & Hrun & _).
        eexists _, _, _, _, _. split; [exact Hrun|]. intros name.
        rewrite dict_get_setitem. by repeat case_decide; subst. }
    apply IH in Hrest as (Hframe & Horigin & Hheld). split_and!.
    + intros name [Hne Hnotin]%not_elem_of_cons.
      rewrite Hframe, Hstep by done. by rewrite decide_False.
    + intros name plugin [Hstart|(finder & ispkg & Hin & Hexp')]%Horigin.
      * rewrite Hstep in Hstart. case_decide; [|by left].
        injection Hstart as <-. subst. right. exists finder0, ispkg0.
        split; [left | done].
      * right. exists finder, ispkg. split; [by right | done].
    + intros [Hfresh Hnodup]%NoDup_cons finder name ispkg plugin Hin Hexp'.
      apply elem_of_cons in Hin as [[= -> -> ->]|Hin]; [|by eapply Hheld].
      rewrite Hframe, Hstep by done. rewrite decide_True by done. congruence.
  - apply IH in Hrun as (Hframe & Horigin & Hheld). split_and!.
    + intros name [Hne Hnotin]%not_elem_of_cons. by apply Hframe.
    + intros name plugin [Hstart|(finder & ispkg & Hin & Hexp')]%Horigin;
        [by left|]. right. exists finder, ispkg. split; [by right | done].
    + intros [Hfresh Hnodup]%NoDup_cons finder name ispkg plugin Hin Hexp'.
      apply elem_of_cons in Hin as [[= -> -> ->]|Hin]; [|by eapply Hheld].
      unfold StreamlinkPlugins.exports in Hlookup. simpl in Hlookup.
      by rewrite Hexp' in Hlookup.
Qed.

Lemma holds_only_get name (t : list (string * Plugin)) k :
  holds_only name t → k ≠ name → dict_get t k = None.
Proof.
  intros [->|[plugin ->]] Hne; simpl; [done|]. by rewrite decide_False.
Qed.

(** In the dictionary that the batch load returns, a name has the plugin that
    the loop held for it. *)
Lemma held_batch specific tDash tHls tHttp name :
  shape specific tDash tHls tHttp →
  dict_get (specific ++ tHls ++ tDash ++ tHttp) name
    = held specific tDash tHls tHttp name.
Proof.
  intros (Hok & Hspec & Hdash & Hhls & Hhttp).
  unfold StreamlinkPlugins.held. rewrite !dict_get_app.
  assert (is_fallback name = true → dict_get specific name = None) as Hnone.
  { intros Hfb. apply dict_get_None. by eapply fallback_not_specific. }
  destruct (decide (name = "dash")) as [->|Hd];
    [|destruct (decide (name = "hls")) as [->|Hh];
      [|destruct (decide (name = "http")) as [->|Ht]]].
  - rewrite Hnone, (holds_only_get _ _ _ Hhls), (holds_only_get _ _ _ Hhttp) by done.
    by destruct (dict_get tDash "dash").
  - rewrite Hnone by done. by destruct (dict_get tHls "hls");
      rewrite ?(holds_only_get _ _ _ Hdash), ?(holds_only_get _ _ _ Hhttp) by done.
  - by rewrite Hnone, (holds_only_get _ _ _ Hhls), (holds_only_get _ _ _ Hdash) by done.
  - rewrite (holds_only_get _ _ _ Hhls), (holds_only_get _ _ _ Hdash),
      (holds_only_get _ _ _ Hhttp) by done.
    by destruct (dict_get specific name).
Qed.

(** The plugins of a batch are the plugin classes that the modules of the
    path export, under the names of the modules. *)
Lemma load_from_path_origin path plugins log name plugin :
  _load_from_path path = (Return plugins, log) →
  dict_get plugins name = Some plugin →
  ∃ finder ispkg,
    (finder, name, ispkg) ∈ iter_modules path ∧ exported finder name = Some plugin.
Proof.
  intros (specific & tDash & tHls & tHttp & Hloop & Hshape & ->)%load_from_path_inv.
  rewrite held_batch by done. intros Hheld.
  apply load_modules_held in Hloop as (_ & Horigin & _).
  apply Horigin in Hheld as [Hstart|?]; [|done].
  unfold StreamlinkPlugins.held in Hstart. by repeat case_decide.
Qed.

Lemma load_from_path_exported path plugins log finder name ispkg plugin :
  _load_from_path path = (Return plugins, log) →
  NoDup (module_names (iter_modules path)) →
  (finder, name, ispkg) ∈ iter_modules path →
  exported finder name = Some plugin →
  dict_get plugins name = Some plugin.
Proof.
  intros (specific & tDash & tHls & tHttp & Hloop & Hshape & ->)%load_from_path_inv.
  intros Hnodup Hin Hexp. rewrite held_batch by done.
  apply load_modules_held in Hloop as (_ & _ & Hheld). by eapply Hheld.
Qed.

(** C6, as the code has it.  When the batch load returns, [load_path]
    merges the batch into the registry and returns [True] exactly when the
    batch holds a plugin, that is when some module of the path exports a
    plugin class, whether or not the registry had it before. *)
Theorem load_path_returns_batch_nonempty self path plugins log :
  _load_from_path path = (Return plugins, log) →
  ∃ b,
    load_path self path = (Return (b, update self plugins), log) ∧
    (b = true ↔ plugins ≠ []) ∧
    (b = true ↔ ∃ entry, entry ∈ iter_modules path ∧ exports entry = true).
Proof.
  intros Hrun. exists (dict_bool plugins).
  pose proof (load_from_path_Return _ _ _ Hrun) as (_ & _ & Hempty).
  assert (dict_bool plugins = true ↔ plugins ≠ []) as Hbool
    by by destruct plugins.
  split_and!.
  - unfold StreamlinkPlugins.load_path. rewrite Hrun, bind_Return_log. simpl.
    by rewrite app_nil_r.
  - done.
  - rewrite Hbool, Hempty. split.
    + intros Hnot.
      destruct (decide (Exists (λ e, exports e = true) (iter_modules path)))
        as [Hex|Hno]; [by apply Exists_exists in Hex|].
      destruct Hnot. intros entry Hin.
      destruct (exports entry) eqn:Hexp; [|done].
      destruct Hno. apply Exists_exists. eauto.
    + intros (entry & Hin & Hexp) Hall. rewrite Hall in Hexp; done.
Qed.

(** The three ways in which [_load_plugin_from_finder] returns. *)
Lemma load_plugin_exported name finder plugin :
  exported finder name = Some plugin →
  ∃ mod_, _load_plugin_from_finder name finder = (Return (Some (mod_, plugin)), []).
Proof.
  unfold StreamlinkPlugins.exported, StreamlinkPlugins._load_plugin_from_finder.
  destruct (exec_module finder _) as [mod_|]; [|done].
  destruct (__plugin__ mod_) as [[]|]; try done. intros [= ->]. by exists mod_.
Qed.

Lemma load_plugin_failed name finder ispkg r :
  failure_record (finder, name, ispkg) = Some r →
  _load_plugin_from_finder name finder = (Return None, [r]) ∧
  exported finder name = None ∧ is_error r = true.
Proof.
  unfold StreamlinkPlugins.failure_record, StreamlinkPlugins.exported,
    StreamlinkPlugins._load_plugin_from_finder. simpl.
  destruct (exec_module finder _) as [mod_|[]]; try done.
  by intros [= <-].
Qed.

Lemma load_plugin_silent name finder ispkg :
  benign (finder, name, ispkg) →
  exported finder name = None →
  failure_record (finder, name, ispkg) = None →
  _load_plugin_from_finder name finder = (Return None, []).
Proof.
  unfold StreamlinkPlugins.benign, StreamlinkPlugins.failure_record,
    StreamlinkPlugins.exported, StreamlinkPlugins._load_plugin_from_finder.
  simpl. destruct (exec_module finder _) as [mod_|[]]; try done.
  by destruct (__plugin__ mod_) as [[]|].
Qed.

Lemma load_modules_benign mods plugins tDash tHls tHttp :
  Forall benign mods →
  ∃ st log,
    load_modules mods plugins tDash tHls tHttp = (Return st, log) ∧
    load_modules (filter (λ entry, exports entry = true) mods)
        plugins tDash tHls tHttp
      = (Return st, filter (λ r, is_error r = false) log) ∧
    filter (λ r, is_error r = true) log = omap failure_record mods.
Proof.
  intros Hbenign. revert plugins tDash tHls tHttp.
  induction Hbenign as [|[[finder name] ispkg] mods Hentry _ IH];
    intros plugins tDash tHls tHttp.
  { by eexists _, _. }
  cbn [omap list_omap].
  destruct (exported finder name) as [plugin|] eqn:Hexp.
  - assert (failure_record (finder, name, ispkg) = None) as ->.
    { unfold StreamlinkPlugins.failure_record, StreamlinkPlugins.exported in *.
      simpl. by destruct (exec_module finder _) as [|[]]. }
    rewrite filter_cons_True
      by (unfold StreamlinkPlugins.exports; simpl; by rewrite Hexp).
    destruct (load_plugin_exported _ _ _ Hexp) as [mod_ Hload].
    cbn [StreamlinkPlugins.load_modules]. rewrite Hload, !bind_Return_l.
    repeat case_decide; try apply IH.
    destruct (dict_contains plugins name).
    + unfold emit. rewrite !bind_Return_log.
      edestruct IH as (st & log & -> & -> & Herr).
      eexists _, _. split_and!; [done| |]; simpl.
      * by rewrite filter_cons_True.
      * by rewrite filter_cons_False.
    + unfold ret. rewrite !bind_Return_l. apply IH.
  - rewrite filter_cons_False
      by (unfold StreamlinkPlugins.exports; simpl; by rewrite Hexp).
    destruct (failure_record (finder, name, ispkg)) as [r|] eqn:Hfail.
    + destruct (load_plugin_failed _ _ _ _ Hfail) as (Hload & _ & Herror).
      cbn [StreamlinkPlugins.load_modules]. rewrite Hload, bind_Return_log.
      edestruct IH as (st & log & -> & -> & Herr).
      eexists _, _. split_and!; [done| |]; simpl.
      * rewrite filter_cons_False; [done|]. by rewrite Herror.
      * rewrite filter_cons_True by done. by rewrite Herr.
    + cbn [StreamlinkPlugins.load_modules].
      rewrite (load_plugin_silent _ _ ispkg), bind_Return_l by done. apply IH.
Qed.

(** C5, as the code has it.  When every module of the path either executes
    or fails with an [ImportError], and what it defines as [__plugin__] is
    a class, the batch load returns.  Its plugins are plugin classes that
    modules of the path export, and each module that exports one has it
    loaded under its name (the names of the modules of a path are
    distinct); they are the plugins of the same path without the modules
    that export no plugin class.  The failures add nothing but one [ERROR]
    record each, in the order of the modules; the modules that merely
    export no plugin class add no record at all. *)
Theorem load_from_path_skips_failures path :
  Forall benign (iter_modules path) →
  ∃ plugins log,
    _load_from_path path = (Return plugins, log) ∧
    (∀ name plugin, dict_get plugins name = Some plugin →
       ∃ finder ispkg,
         (finder, name, ispkg) ∈ iter_modules path ∧
         exported finder name = Some plugin) ∧
    (NoDup (module_names (iter_modules path)) →
     ∀ finder name ispkg plugin,
       (finder, name, ispkg) ∈ iter_modules path →
       exported finder name = Some plugin →
       dict_get plugins name = Some plugin) ∧
    StreamlinkPlugins._load_from_path
        (λ p, filter (λ entry, exports entry = true) (iter_modules p))
        exec_module path
      = (Return plugins, filter (λ r, is_error r = false) log) ∧
    filter (λ r, is_error r = true) log = omap failure_record (iter_modules path).
Proof.
  intros Hbenign.
  destruct (load_modules_benign _ [] [] [] [] Hbenign)
    as ([[[specific tDash] tHls] tHttp] & log & Hloop & Hfiltered & Herr).
  assert (∃ plugins, _load_from_path path = (Return plugins, log) ∧
            StreamlinkPlugins._load_from_path
                (λ p, filter (λ entry, exports entry = true) (iter_modules p))
                exec_module path
              = (Return plugins, filter (λ r, is_error r = false) log))
    as (plugins & Hrun & Hrun').
  { unfold StreamlinkPlugins._load_from_path. rewrite Hloop, Hfiltered.
    rewrite !bind_Return_log. simpl. rewrite !app_nil_r. by eexists. }
  exists plugins, log. split_and!; [done| | |done..].
  - intros name plugin. by eapply load_from_path_origin.
  - intros Hnodup finder name ispkg plugin. by eapply load_from_path_exported.
Qed.
End load_facts.

(** ** Resolution after a batch load *)

Section load_then_match_facts.
Import StreamlinkPlugins.
Context {Plugin Matcher Finder : Type}.
Context (matchers : Plugin → option (list Matcher)).
Context (pattern_match : Matcher → string → bool).
Context (iter_modules : string → list (Finder * string * bool)).
Context (exec_module : Finder → string → outcome (@PyModule Plugin)).
Implicit Types (self plugins : list (string * Plugin)) (url name path : string).

Local Abbreviation plugin_matches := (plugin_matches matchers pattern_match).
Local Abbreviation first_match := (first_match matchers pattern_match).
Local Abbreviation match_url := (match_url matchers pattern_match).
Local Abbreviation _load_from_path := (_load_from_path iter_modules exec_module).
Local Abbreviation load_path := (load_path iter_modules exec_module).

Lemma load_path_Return self path plugins log :
  _load_from_path path = (Return plugins, log) →
  load_path self path = (Return (dict_bool plugins, update self plugins), log).
Proof.
  intros Hrun. unfold StreamlinkPlugins.load_path.
  rewrite Hrun, bind_Return_log. simpl. by rewrite app_nil_r.
Qed.

Lemma is_fallback_true name :
  is_fallback name = true ↔ name = "dash" ∨ name = "hls" ∨ name = "http".
Proof.
  unfold is_fallback. rewrite bool_decide_eq_true, !elem_of_cons, elem_of_nil.
  tauto.
Qed.

(** C1, as the code has it.  The batch load puts the plugins under other
    names before [hls], [dash] and [http].  Merged into a registry that
    holds none of these three names, the batch leaves the registry in that
    order too, and a plugin of the batch under another name that matches the
    URL makes the URL resolve to a plugin under a name other than the three,
    which matches it: to that very plugin when it is the only such one in
    the registry. *)
Theorem load_path_specific_before_fallback
    self path plugins log url name plugin :
  dict_ok self →
  (∀ n, n ∈ dict_keys self → is_fallback n = false) →
  _load_from_path path = (Return plugins, log) →
  (name, plugin) ∈ plugins →
  is_fallback name = false →
  plugin_matches plugin url = true →
  batch_order plugins ∧
  ∃ self' found_name found log',
    load_path self path = (Return (true, self'), log) ∧
    batch_order self' ∧
    match_url self' url = (Return (Some (found_name, found)), log') ∧
    is_fallback found_name = false ∧
    plugin_matches found url = true ∧
    ((∀ n p, (n, p) ∈ self' → is_fallback n = false →
             plugin_matches p url = true → n = name) →
     found_name = name ∧ found = plugin).
Proof.
  intros Hok Hself Hrun Hin Hname Hmatch.
  pose proof (load_from_path_Return _ _ _ _ _ Hrun)
    as ((specific & tHls & tDash & tHttp & -> & Hspec & Hhls & Hdash & Hhttp)
        & Hokp & _).
  split; [by exists specific, tHls, tDash, tHttp|].
  set (fallbacks := tHls ++ tDash ++ tHttp) in *.
  assert (∀ k, k ∈ dict_keys fallbacks → is_fallback k = true) as Hfb.
  { intros k. unfold fallbacks, dict_keys. rewrite !fmap_app, !elem_of_app.
    rewrite is_fallback_true.
    intros [Hk|[Hk|Hk]];
      [apply (holds_only_keys _ _ _ Hhls) in Hk
      |apply (holds_only_keys _ _ _ Hdash) in Hk
      |apply (holds_only_keys _ _ _ Hhttp) in Hk]; auto. }
  set (merged := dict_update self specific).
  assert (∀ k, k ∈ dict_keys merged → is_fallback k = false) as Hmerged.
  { intros k [Hk|Hk]%dict_update_keys; auto. }
  assert (update self (specific ++ fallbacks) = merged ++ fallbacks) as Hupd.
  { unfold update. rewrite dict_update_app. apply dict_update_fresh.
    - unfold dict_ok, dict_keys in Hokp |- *. rewrite fmap_app in Hokp.
      by apply NoDup_app in Hokp as (_ & _ & ?).
    - intros k Hk Hk'. apply Hfb in Hk. apply Hmerged in Hk'. congruence. }
  assert (dict_ok (merged ++ fallbacks)) as Hok'.
  { rewrite <-Hupd. by apply dict_update_ok. }
  assert ((name, plugin) ∈ merged) as Hin'.
  { assert (dict_get (merged ++ fallbacks) name = Some plugin) as Hget.
    { rewrite <-Hupd. unfold update. rewrite dict_get_update by done.
      by rewrite (dict_get_elem _ _ _ Hokp Hin). }
    rewrite dict_get_app in Hget.
    destruct (dict_get merged name) as [p|] eqn:Hm.
    - injection Hget as ->. by apply dict_get_Some_elem.
    - apply dict_get_Some_elem in Hget.
      assert (is_fallback name = true); [|congruence].
      apply Hfb, list_elem_of_fmap. by exists (name, plugin). }
  destruct (first_match url merged) as [[found_name found]|] eqn:Hfirst; cycle 1.
  { rewrite first_match_None in Hfirst. rewrite (Hfirst _ _ Hin') in Hmatch. done. }
  pose proof (first_match_elem _ _ _ _ _ _ Hfirst) as [Hfound Hfm].
  exists (merged ++ fallbacks), found_name, found, [found_record found_name url].
  split_and!.
  - rewrite (load_path_Return _ _ _ _ Hrun), Hupd.
    destruct (specific ++ fallbacks); [|done]. by apply elem_of_nil in Hin.
  - by exists merged, tHls, tDash, tHttp.
  - rewrite match_url_first_match_eq by done.
    by rewrite first_match_app, Hfirst.
  - apply Hmerged, list_elem_of_fmap. by exists (found_name, found).
  - done.
  - intros Honly.
    assert (found_name = name) as ->.
    { apply (Honly found_name found); [apply elem_of_app; by left| |done].
      apply Hmerged, list_elem_of_fmap. by exists (found_name, found). }
    split; [done|].
    assert (dict_get (merged ++ fallbacks) name = Some found) as Hg1.
    { apply dict_get_elem; [done|]. apply elem_of_app. by left. }
    assert (dict_get (merged ++ fallbacks) name = Some plugin) as Hg2.
    { apply dict_get_elem; [done|]. apply elem_of_app. by left. }
    congruence.
Qed.

(** C2, as the code has it.  A batch that holds the three names [dash],
    [hls] and [http] and no other leaves them in the order [hls], [dash],
    [http].  Merged into a registry that holds none of the three names and
    no plugin matching the URL, it makes a URL that the [hls] plugin
    matches resolve to [hls]. *)
Theorem load_path_fallback_order self path plugins log url hls :
  dict_ok self →
  (∀ n p, (n, p) ∈ self → is_fallback n = false ∧ plugin_matches p url = false) →
  _load_from_path path = (Return plugins, log) →
  (∀ n, n ∈ dict_keys plugins ↔ n ∈ ["dash"; "hls"; "http"]) →
  dict_get plugins "hls" = Some hls →
  plugin_matches hls url = true →
  ∃ dash http,
    plugins = [("hls", hls); ("dash", dash); ("http", http)] ∧
    load_path self path = (Return (true, self ++ plugins), log) ∧
    match_url (self ++ plugins) url
      = (Return (Some ("hls", hls)), [found_record "hls" url]).
Proof.
  intros Hok Hself Hrun Hkeys Hget Hmatch.
  pose proof (load_from_path_Return _ _ _ _ _ Hrun)
    as ((specific & tHls & tDash & tHttp & -> & Hspec & Hhls & Hdash & Hhttp)
        & Hokp & _).
  assert (specific = []) as ->.
  { destruct specific as [|[k v] specific]; [done|].
    assert (is_fallback k = true) as Hk.
    { unfold is_fallback. apply bool_decide_eq_true, Hkeys.
      unfold dict_keys. simpl. left. }
    rewrite Hspec in Hk; [done|]. unfold dict_keys. simpl. left. }
  assert (∃ p1 p2 p3,
            tHls = [("hls", p1)] ∧ tDash = [("dash", p2)] ∧ tHttp = [("http", p3)])
    as (p1 & p2 & p3 & -> & -> & ->).
  { assert ("hls" ∈ dict_keys ([] ++ tHls ++ tDash ++ tHttp)) as H1
      by (apply Hkeys, (bool_decide_unpack _); by vm_compute).
    assert ("dash" ∈ dict_keys ([] ++ tHls ++ tDash ++ tHttp)) as H2
      by (apply Hkeys, (bool_decide_unpack _); by vm_compute).
    assert ("http" ∈ dict_keys ([] ++ tHls ++ tDash ++ tHttp)) as H3
      by (apply Hkeys, (bool_decide_unpack _); by vm_compute).
    destruct Hhls as [->|[p1 ->]], Hdash as [->|[p2 ->]], Hhttp as [->|[p3 ->]];
      unfold dict_keys in H1, H2, H3; simpl in H1, H2, H3;
      try (by exists p1, p2, p3); exfalso;
      apply (bool_decide_pack _) in H1, H2, H3;
      vm_compute in H1, H2, H3; done. }
  simpl in Hget. injection Hget as ->.
  simpl in *. exists p2, p3. split; [done|].
  assert (update self [("hls", hls); ("dash", p2); ("http", p3)]
          = self ++ [("hls", hls); ("dash", p2); ("http", p3)]) as Hupd.
  { apply dict_update_fresh; [done|]. intros k Hk Hk'.
    apply list_elem_of_fmap in Hk' as ([k' p] & -> & Hin).
    apply Hself in Hin as [Hin _]. simpl in Hin.
    assert (is_fallback k' = true); [|congruence].
    unfold is_fallback. apply bool_decide_eq_true, Hkeys, Hk. }
  split.
  - by rewrite (load_path_Return _ _ _ _ Hrun), Hupd.
  - rewrite match_url_first_match_eq by (rewrite <-Hupd; by apply dict_update_ok).
    rewrite first_match_app.
    assert (first_match url self = None) as ->.
    { apply first_match_None. intros n p Hin. by apply Hself in Hin as [_ ?]. }
    simpl. by rewrite Hmatch.
Qed.
End load_then_match_facts.

(** ** The registry stays a well-formed dictionary *)

Section registry_invariant.
Import StreamlinkPlugins.
Context {Plugin Finder : Type}.
Context (iter_modules : string → list (Finder * string * bool)).
Context (exec_module : Finder → string → outcome (@PyModule Plugin)).
Context (_PLUGINS_PATH : string).
Implicit Types (self plugins : list (string * Plugin)).

Lemma load_path_ok self path b self' log :
  dict_ok self →
  load_path iter_modules exec_module self path = (Return (b, self'), log) →
  dict_ok self'.
Proof.
  intros Hok Hrun. unfold StreamlinkPlugins.load_path in Hrun.
  apply bind_Return_inv in Hrun as (plugins & l1 & l2 & _ & Hret & _).
  injection Hret as _ <- _. by apply dict_update_ok.
Qed.

(** No method of the registry breaks the invariant [dict_ok], which holds
    of a new registry. *)
Lemma methods_preserve_ok self :
  dict_ok self →
  (∀ key value, dict_ok (__setitem__ self key value)) ∧
  (∀ key, dict_ok (__delitem__ self key)) ∧
  (∀ plugins, dict_ok (update self plugins)) ∧
  dict_ok (clear self) ∧
  dict_ok (get_loaded self) ∧
  (∀ path b self' log,
      load_path iter_modules exec_module self path = (Return (b, self'), log) →
      dict_ok self').
Proof.
  intros Hok. split_and!.
  - intros. by apply dict_setitem_ok.
  - intros. by apply dict_pop_ok.
  - intros. by apply dict_update_ok.
  - apply NoDup_nil_2.
  - done.
  - intros path b self' log. by apply load_path_ok.
Qed.

Lemma init_ok builtin self log :
  __init__ iter_modules exec_module _PLUGINS_PATH builtin = (Return self, log) →
  dict_ok self.
Proof.
  unfold __init__, load_builtin. destruct builtin.
  - intros ([b self'] & l1 & l2 & Hload & [= <- _] & _)%bind_Return_inv.
    eapply load_path_ok; [|done]. apply NoDup_nil_2.
  - intros [= <- _]. apply NoDup_nil_2.
Qed.
End registry_invariant.

(** ** The snapshot of the registry *)

Section store_facts.
Context {Plugin Finder : Type}.
Context (iter_modules : string → list (Finder * string * bool)).
Context (exec_module : Finder → string → outcome (@StreamlinkPlugins.PyModule Plugin)).
Implicit Types (self : Store.object) (σ : gmap positive (list (string * Plugin))).

Local Abbreviation run_call := (Store.run_call iter_modules exec_module).
Local Abbreviation run_calls := (Store.run_calls iter_modules exec_module).

(** A mutating call acts on the dictionary of the registry only. *)
Lemma run_call_frame self c σ (l : positive) :
  l ≠ Store._plugins self → run_call self c σ !! l = σ !! l.
Proof. intros Hne. destruct c; simpl; by rewrite lookup_alter_ne. Qed.

Lemma run_calls_frame self cs σ (l : positive) :
  l ≠ Store._plugins self → run_calls self cs σ !! l = σ !! l.
Proof.
  intros Hne. revert σ. induction cs as [|c cs IH]; intros σ; [done|].
  unfold Store.run_calls in *. simpl. by rewrite IH, run_call_frame.
Qed.

(** C8. [get_loaded] returns a reference to a new dictionary, not the one
    of the registry; it holds the items of the registry at the time of the
    call and still holds them after any sequence of [__setitem__],
    [__delitem__], [update], [clear] and [load_path] on the registry. *)
Theorem get_loaded_returns_a_copy self σ items :
  σ !! Store._plugins self = Some items →
  ∃ copy σ',
    Store.get_loaded self σ = (copy, σ') ∧
    copy ≠ Store._plugins self ∧
    σ' !! Store._plugins self = Some items ∧
    σ' !! copy = Some items ∧
    ∀ calls, run_calls self calls σ' !! copy = Some items.
Proof.
  intros Hself. unfold Store.get_loaded. eexists _, _. split; [done|].
  assert (fresh (dom σ) ≠ Store._plugins self) as Hne.
  { intros Heq. apply (is_fresh (dom σ)). rewrite Heq. by apply elem_of_dom. }
  rewrite Hself. simpl. unfold StreamlinkPlugins.get_loaded.
  split_and!; [done| | |].
  - by rewrite lookup_insert_ne.
  - by rewrite lookup_insert_eq.
  - intros calls. rewrite run_calls_frame by done. by rewrite lookup_insert_eq.
Qed.
End store_facts.

(** ** Closing an HTTP stream *)

Section stream_facts.
Import HTTPStream.
Context {World : Type}.
Context (request : @IO World (@value World)).
Context (iter_wrapper thread_wrapper : @value World → @IO World (@value World)).
Implicit Types (self : @stream World) (w : World).

Lemma try_except_pass_returns (body : @IO World unit) w :
  ∃ w', try_except_pass body w = (Return tt, w').
Proof. unfold try_except_pass. destruct (body w) as [[] w']; by eexists. Qed.

Lemma close_returns self w : ∃ w', close self w = (Return tt, w').
Proof.
  unfold close, io_bind.
  assert (∀ v w0, ∃ w1,
            (if hasattr_close v then try_except_pass (call_close v) else io_ret tt) w0
            = (Return tt, w1)) as Hpart.
  { intros v w0. destruct (hasattr_close v);
      [apply try_except_pass_returns | by eexists]. }
  destruct (Hpart (res self) w) as [w1 ->]. apply Hpart.
Qed.

Lemma close_times_returns n self w : ∃ w', close_times n self w = (Return tt, w').
Proof.
  revert w. induction n as [|n IH]; intros w; simpl; [by eexists|].
  unfold io_bind. destruct (close_returns self w) as [w1 ->]. apply IH.
Qed.

(** C9. [close] returns without raising from every state of the stream and
    of the objects behind it, also when their own [close] raises; so does
    any number of calls in a row, and so after any earlier calls of [open]
    and [close], failed or not, starting from a new stream. *)
Theorem close_never_raises self w :
  (∀ n, ∃ w', close_times n self w = (Return tt, w')) ∧
  (∀ buffered calls n,
      let '(self', w') :=
        run request iter_wrapper thread_wrapper calls (__init__ buffered) w in
      ∃ w'', close_times n self' w' = (Return tt, w'')).
Proof.
  split.
  - intros n. apply close_times_returns.
  - intros buffered calls n.
    destruct (run _ _ _ calls (__init__ buffered) w) as [self' w'].
    apply close_times_returns.
Qed.
End stream_facts.

(** * The model at work *)

(** ** Instances of the theorems in the concrete world *)

(** Resolution of the media URL in a registry of five plugins: the first
    two patterns tried do not match, the second pattern of [hls] does. *)
Lemma match_url_returns_first_match_witness :
  dict_ok (Demo.batch ++ Demo.registry_b) ∧
  ∃ result log,
    StreamlinkPlugins.match_url Demo.matchers Demo.pattern_match
      (Demo.batch ++ Demo.registry_b) Demo.url_media = (Return result, log) ∧
    match result with
    | None =>
        ∀ name plugin, (name, plugin) ∈ Demo.batch ++ Demo.registry_b →
          Demo.plugin_matches plugin Demo.url_media = false
    | Some (name, plugin) =>
        (∃ before after,
            Demo.batch ++ Demo.registry_b = before ++ (name, plugin) :: after ∧
            ∀ n p, (n, p) ∈ before → Demo.plugin_matches p Demo.url_media = false) ∧
        (∃ ms1 matcher ms2,
            Demo.matchers plugin = Some (ms1 ++ matcher :: ms2) ∧
            Demo.pattern_match matcher Demo.url_media = true ∧
            (∀ m, m ∈ ms1 → Demo.pattern_match m Demo.url_media = false) ∧
            ∀ ms2' next,
              StreamlinkPlugins.match_matchers Demo.pattern_match
                (Demo.batch ++ Demo.registry_b) name Demo.url_media
                (ms1 ++ matcher :: ms2') next
              = (Return result, log)) ∧
        (∀ later, dict_ok ((Demo.batch ++ Demo.registry_b) ++ later) →
            StreamlinkPlugins.match_url Demo.matchers Demo.pattern_match
              ((Demo.batch ++ Demo.registry_b) ++ later) Demo.url_media
            = (Return result, log))
    end.
Proof.
  assert (dict_ok (Demo.batch ++ Demo.registry_b)) as Hok
    by (apply (bool_decide_unpack _); vm_compute; exact I).
  split; [exact Hok|].
  exact (match_url_returns_first_match Demo.matchers Demo.pattern_match
           (Demo.batch ++ Demo.registry_b) Demo.url_media Hok).
Defined.

(** Site A's name is given the [hls] plugin, which does not match site A's
    URL. *)
Lemma setitem_overrides_witness :
  dict_ok Demo.registry_ab ∧
  dict_get Demo.registry_ab "sitea" = Some Demo.SiteA ∧
  let self' := StreamlinkPlugins.__setitem__ Demo.registry_ab "sitea" Demo.HLS in
  dict_ok self' ∧
  dict_keys self' = dict_keys Demo.registry_ab ∧
  dict_get self' "sitea" = Some Demo.HLS ∧
  (∀ name, name ≠ "sitea" → dict_get self' name = dict_get Demo.registry_ab name) ∧
  ((∀ name plugin, (name, plugin) ∈ Demo.registry_ab → name ≠ "sitea" →
       StreamlinkPlugins.plugin_matches Demo.matchers Demo.pattern_match
         plugin Demo.url_sitea = false) →
   StreamlinkPlugins.match_url Demo.matchers Demo.pattern_match self' Demo.url_sitea =
     if StreamlinkPlugins.plugin_matches Demo.matchers Demo.pattern_match
          Demo.HLS Demo.url_sitea
     then (Return (Some ("sitea", Demo.HLS)),
           [StreamlinkPlugins.found_record "sitea" Demo.url_sitea])
     else (Return None, [])).
Proof.
  assert (dict_ok Demo.registry_ab) as Hok
    by (apply (bool_decide_unpack _); vm_compute; exact I).
  assert (dict_get Demo.registry_ab "sitea" = Some Demo.SiteA) as Hget
    by reflexivity.
  split; [exact Hok|]. split; [exact Hget|].
  exact (setitem_overrides Demo.matchers Demo.pattern_match
           Demo.registry_ab "sitea" Demo.SiteA Demo.HLS Demo.url_sitea Hok Hget).
Defined.

Example override_unmatches :
  Demo.match_url Demo.registry_ab Demo.url_sitea
    = (Return (Some ("sitea", Demo.SiteA)),
       [(DEBUG, "Plugin [sitea] found for: https://sitea.example/video/1")]) ∧
  Demo.match_url (StreamlinkPlugins.__setitem__ Demo.registry_ab "sitea" Demo.HLS)
      Demo.url_sitea
    = (Return None, []).
Proof. split; reflexivity. Qed.

(** The names of a batch, which is not in alphabetical order. *)
Lemma get_names_sorted_witness :
  dict_ok Demo.batch ∧
  StronglySorted String.le (StreamlinkPlugins.get_names Demo.batch) ∧
  NoDup (StreamlinkPlugins.get_names Demo.batch) ∧
  (∀ name, name ∈ StreamlinkPlugins.get_names Demo.batch ↔
           StreamlinkPlugins.__contains__ Demo.batch name = true) ∧
  (∀ other : list (string * Demo.Plugin),
      dict_keys other ≡ₚ dict_keys Demo.batch →
      StreamlinkPlugins.get_names other = StreamlinkPlugins.get_names Demo.batch).
Proof.
  assert (dict_ok Demo.batch) as Hok
    by (apply (bool_decide_unpack _); vm_compute; exact I).
  split; [exact Hok|]. exact (get_names_sorted Demo.batch Hok).
Defined.

Example get_names_batch :
  StreamlinkPlugins.get_names Demo.batch = ["dash"; "hls"; "http"; "sitea"].
Proof. reflexivity. Qed.

(** The path [plugins], whose modules come in the order [dash], [hls],
    [http], [sitea], loaded into a registry that holds site B's plugin. *)
Lemma load_path_specific_before_fallback_witness :
  (dict_ok Demo.registry_b ∧
   (∀ n, n ∈ dict_keys Demo.registry_b → StreamlinkPlugins.is_fallback n = false) ∧
   StreamlinkPlugins._load_from_path Demo.iter_modules Demo.exec_module "plugins"
     = (Return Demo.batch, []) ∧
   ("sitea", Demo.SiteA) ∈ Demo.batch ∧
   StreamlinkPlugins.is_fallback "sitea" = false ∧
   StreamlinkPlugins.plugin_matches Demo.matchers Demo.pattern_match
     Demo.SiteA Demo.url_sitea = true) ∧
  StreamlinkPlugins.batch_order Demo.batch ∧
  ∃ self' found_name found log',
    StreamlinkPlugins.load_path Demo.iter_modules Demo.exec_module
      Demo.registry_b "plugins" = (Return (true, self'), []) ∧
    StreamlinkPlugins.batch_order self' ∧
    StreamlinkPlugins.match_url Demo.matchers Demo.pattern_match self' Demo.url_sitea
      = (Return (Some (found_name, found)), log') ∧
    StreamlinkPlugins.is_fallback found_name = false ∧
    StreamlinkPlugins.plugin_matches Demo.matchers Demo.pattern_match
      found Demo.url_sitea = true ∧
    ((∀ n p, (n, p) ∈ self' → StreamlinkPlugins.is_fallback n = false →
             StreamlinkPlugins.plugin_matches Demo.matchers Demo.pattern_match
               p Demo.url_sitea = true → n = "sitea") →
     found_name = "sitea" ∧ found = Demo.SiteA).
Proof.
  assert (dict_ok Demo.registry_b) as Hok
    by (apply (bool_decide_unpack _); vm_compute; exact I).
  assert (∀ n, n ∈ dict_keys Demo.registry_b → StreamlinkPlugins.is_fallback n = false)
    as Hself.
  { intros n Hn. apply list_elem_of_singleton in Hn. subst n. reflexivity. }
  assert (StreamlinkPlugins._load_from_path Demo.iter_modules Demo.exec_module "plugins"
          = (Return Demo.batch, [])) as Hrun by reflexivity.
  assert (("sitea", Demo.SiteA) ∈ Demo.batch) as Hin by left.
  split; [exact (conj Hok (conj Hself (conj Hrun (conj Hin (conj eq_refl eq_refl)))))|].
  exact (load_path_specific_before_fallback Demo.matchers Demo.pattern_match
           Demo.iter_modules Demo.exec_module Demo.registry_b "plugins" Demo.batch []
           Demo.url_sitea "sitea" Demo.SiteA Hok Hself Hrun Hin eq_refl eq_refl).
Defined.

(** The path [fallbacks] loaded into a registry that holds site B's
    plugin. *)
Lemma load_path_fallback_order_witness :
  (dict_ok Demo.registry_b ∧
   (∀ n p, (n, p) ∈ Demo.registry_b →
      StreamlinkPlugins.is_fallback n = false ∧
      StreamlinkPlugins.plugin_matches Demo.matchers Demo.pattern_match
        p Demo.url_media = false) ∧
   StreamlinkPlugins._load_from_path Demo.iter_modules Demo.exec_module "fallbacks"
     = (Return Demo.fallbacks, []) ∧
   (∀ n, n ∈ dict_keys Demo.fallbacks ↔ n ∈ ["dash"; "hls"; "http"]) ∧
   dict_get Demo.fallbacks "hls" = Some Demo.HLS ∧
   StreamlinkPlugins.plugin_matches Demo.matchers Demo.pattern_match
     Demo.HLS Demo.url_media = true) ∧
  ∃ dash http,
    Demo.fallbacks = [("hls", Demo.HLS); ("dash", dash); ("http", http)] ∧
    StreamlinkPlugins.load_path Demo.iter_modules Demo.exec_module
      Demo.registry_b "fallbacks"
      = (Return (true, Demo.registry_b ++ Demo.fallbacks), []) ∧
    StreamlinkPlugins.match_url Demo.matchers Demo.pattern_match
      (Demo.registry_b ++ Demo.fallbacks) Demo.url_media
      = (Return (Some ("hls", Demo.HLS)),
         [StreamlinkPlugins.found_record "hls" Demo.url_media]).
Proof.
  assert (dict_ok Demo.registry_b) as Hok
    by (apply (bool_decide_unpack _); vm_compute; exact I).
  assert (∀ n p, (n, p) ∈ Demo.registry_b →
            StreamlinkPlugins.is_fallback n = false ∧
            StreamlinkPlugins.plugin_matches Demo.matchers Demo.pattern_match
              p Demo.url_media = false) as Hself.
  { intros n p Hin. apply list_elem_of_singleton in Hin.
    injection Hin as -> ->. split; reflexivity. }
  assert (StreamlinkPlugins._load_from_path Demo.iter_modules Demo.exec_module
            "fallbacks" = (Return Demo.fallbacks, [])) as Hrun by reflexivity.
  assert (∀ n, n ∈ dict_keys Demo.fallbacks ↔ n ∈ ["dash"; "hls"; "http"]) as Hkeys.
  { intros n. unfold dict_keys, Demo.fallbacks. simpl.
    rewrite !elem_of_cons, !elem_of_nil. tauto. }
  split; [exact (conj Hok (conj Hself (conj Hrun (conj Hkeys (conj eq_refl eq_refl)))))|].
  exact (load_path_fallback_order Demo.matchers Demo.pattern_match
           Demo.iter_modules Demo.exec_module Demo.registry_b "fallbacks"
           Demo.fallbacks [] Demo.url_media Demo.HLS
           Hok Hself Hrun Hkeys eq_refl eq_refl).
Defined.

(** The path [mixed]: a module that fails with an [ImportError], one
    without [__plugin__], one whose [__plugin__] is another class, and site
    B's module. *)
Lemma load_from_path_skips_failures_witness :
  Forall (StreamlinkPlugins.benign Demo.exec_module) (Demo.iter_modules "mixed") ∧
  ∃ plugins log,
    StreamlinkPlugins._load_from_path Demo.iter_modules Demo.exec_module "mixed"
      = (Return plugins, log) ∧
    (∀ name plugin, dict_get plugins name = Some plugin →
       ∃ finder ispkg,
         (finder, name, ispkg) ∈ Demo.iter_modules "mixed" ∧
         StreamlinkPlugins.exported Demo.exec_module finder name = Some plugin) ∧
    (NoDup (StreamlinkPlugins.module_names (Demo.iter_modules "mixed")) →
     ∀ finder name ispkg plugin,
       (finder, name, ispkg) ∈ Demo.iter_modules "mixed" →
       StreamlinkPlugins.exported Demo.exec_module finder name = Some plugin →
       dict_get plugins name = Some plugin) ∧
    StreamlinkPlugins._load_from_path
        (λ p, filter (λ entry, StreamlinkPlugins.exports Demo.exec_module entry = true)
                (Demo.iter_modules p))
        Demo.exec_module "mixed"
      = (Return plugins, filter (λ r, StreamlinkPlugins.is_error r = false) log) ∧
    filter (λ r, StreamlinkPlugins.is_error r = true) log
      = omap (StreamlinkPlugins.failure_record Demo.exec_module)
          (Demo.iter_modules "mixed").
Proof.
  assert (Forall (StreamlinkPlugins.benign Demo.exec_module)
            (Demo.iter_modules "mixed")) as Hbenign.
  { repeat apply Forall_cons_2; try apply Forall_nil_2;
      vm_compute; solve [exact I | discriminate]. }
  split; [exact Hbenign|].
  exact (load_from_path_skips_failures Demo.iter_modules Demo.exec_module
           "mixed" Hbenign).
Defined.

Example load_mixed :
  Demo.load_path [] "mixed"
  = (Return (true, [("siteb", Demo.SiteB)]),
     [(ERROR, "Failed to load plugin broken from mixed/broken.py" +:+ LF)]).
Proof. reflexivity. Qed.

(** The path [sitea-only] loaded into a registry that holds site A's plugin
    already. *)
Lemma load_path_returns_batch_nonempty_witness :
  StreamlinkPlugins._load_from_path Demo.iter_modules Demo.exec_module "sitea-only"
    = (Return Demo.registry_a, []) ∧
  ∃ b,
    StreamlinkPlugins.load_path Demo.iter_modules Demo.exec_module
      Demo.registry_ab "sitea-only"
      = (Return (b, StreamlinkPlugins.update Demo.registry_ab Demo.registry_a), []) ∧
    (b = true ↔ Demo.registry_a ≠ []) ∧
    (b = true ↔ ∃ entry, entry ∈ Demo.iter_modules "sitea-only" ∧
                         StreamlinkPlugins.exports Demo.exec_module entry = true).
Proof.
  assert (StreamlinkPlugins._load_from_path Demo.iter_modules Demo.exec_module
            "sitea-only" = (Return Demo.registry_a, [])) as Hrun by reflexivity.
  split; [exact Hrun|].
  exact (load_path_returns_batch_nonempty Demo.iter_modules Demo.exec_module
           Demo.registry_ab "sitea-only" Demo.registry_a [] Hrun).
Defined.

(** A snapshot of the registry at address 1. *)
Lemma get_loaded_returns_a_copy_witness :
  Demo.store1 !! Store._plugins Demo.session = Some Demo.registry_ab ∧
  ∃ copy σ',
    Store.get_loaded Demo.session Demo.store1 = (copy, σ') ∧
    copy ≠ Store._plugins Demo.session ∧
    σ' !! Store._plugins Demo.session = Some Demo.registry_ab ∧
    σ' !! copy = Some Demo.registry_ab ∧
    ∀ calls,
      Store.run_calls Demo.iter_modules Demo.exec_module Demo.session calls σ' !! copy
      = Some Demo.registry_ab.
Proof.
  assert (Demo.store1 !! Store._plugins Demo.session = Some Demo.registry_ab)
    as Hself by reflexivity.
  split; [exact Hself|].
  exact (get_loaded_returns_a_copy Demo.iter_modules Demo.exec_module
           Demo.session Demo.store1 Demo.registry_ab Hself).
Defined.

Example match_url_unrelated :
  Demo.match_url Demo.batch "ftp://unrelated/path" = (Return None, []).
Proof. reflexivity. Qed.

Example clear_after_get_loaded :
  let '(copy, σ) := Store.get_loaded Demo.session Demo.store1 in
  let σ' := Store.run_calls Demo.iter_modules Demo.exec_module Demo.session
              [Store.Clear; Store.LoadPath "fallbacks"] σ in
  σ' !! Store._plugins Demo.session = Some Demo.fallbacks ∧
  σ' !! copy = Some Demo.registry_ab.
Proof. split; reflexivity. Qed.

(** A stream whose response and wrapper both fail to close: the world
    counts the calls of [close] that reached them. *)
Example close_swallows_failures :
  let failing : @HTTPStream.value nat :=
    HTTPStream.Object (Some (λ w, (Raise (OtherError "OSError"), S w))) in
  let self := {| HTTPStream.buffered := true;
                 HTTPStream.fd := failing; HTTPStream.res := failing |} in
  HTTPStream.close_times 2 self 0 = (Return tt, 4).
Proof. reflexivity. Qed.

(** ** Where the code departs from the specification *)

(** C1 as stated fails when [http] is registered before the batch is loaded:
    after the generic plugins are loaded from one path, loading a path with
    site A's plugin and the generic ones puts site A's plugin last, and site
    A's URL resolves to [http]. *)
Lemma http_registered_earlier_shadows_specific :
  Demo.load_path [] "fallbacks" = (Return (true, Demo.fallbacks), []) ∧
  Demo._load_from_path "plugins" = (Return Demo.batch, []) ∧
  Demo.plugin_matches Demo.SiteA Demo.url_sitea = true ∧
  Demo.plugin_matches Demo.HTTP Demo.url_sitea = true ∧
  Demo.load_path Demo.fallbacks "plugins"
    = (Return (true, Demo.fallbacks ++ [("sitea", Demo.SiteA)]), []) ∧
  Demo.match_url (Demo.fallbacks ++ [("sitea", Demo.SiteA)]) Demo.url_sitea
    = (Return (Some ("http", Demo.HTTP)),
       [(DEBUG, "Plugin [http] found for: https://sitea.example/video/1")]).
Proof. repeat split; reflexivity. Qed.

(** C2 as stated fails when one of the three names is registered before the
    batch is loaded: [http], registered on its own and then loaded again with
    [dash] and [hls], keeps the first position and wins over [hls]. *)
Lemma http_registered_earlier_precedes_hls :
  StreamlinkPlugins.__setitem__ [] "http" Demo.HTTP = [("http", Demo.HTTP)] ∧
  Demo._load_from_path "fallbacks" = (Return Demo.fallbacks, []) ∧
  Demo.plugin_matches Demo.HLS Demo.url_media = true ∧
  Demo.plugin_matches Demo.DASH Demo.url_media = true ∧
  Demo.plugin_matches Demo.HTTP Demo.url_media = true ∧
  Demo.load_path [("http", Demo.HTTP)] "fallbacks"
    = (Return (true, [("http", Demo.HTTP); ("hls", Demo.HLS); ("dash", Demo.DASH)]), []) ∧
  Demo.match_url [("http", Demo.HTTP); ("hls", Demo.HLS); ("dash", Demo.DASH)]
      Demo.url_media
    = (Return (Some ("http", Demo.HTTP)),
       [(DEBUG, "Plugin [http] found for: http://media.example/live")]).
Proof. repeat split; reflexivity. Qed.

(** C5 as stated fails for a module that raises an exception other than
    [ImportError], here a [SyntaxError]: nothing is logged, the exception
    leaves [load_path], and the plugins of the other modules are not
    registered. *)
Lemma syntax_error_aborts_the_load :
  Demo.iter_modules "syntaxerror"
    = [(Demo.defines "syntaxerror/sitea.py" Demo.SiteA, "sitea", false);
       (Raise (OtherError "SyntaxError"), "typo", false);
       (Demo.defines "syntaxerror/siteb.py" Demo.SiteB, "siteb", false)] ∧
  Demo._load_from_path "syntaxerror" = (Raise (OtherError "SyntaxError"), []) ∧
  Demo.load_path [] "syntaxerror" = (Raise (OtherError "SyntaxError"), []).
Proof. repeat split; reflexivity. Qed.

(** C6 as stated fails when the path is loaded a second time: the registry
    already holds the only plugin of the path and stays as it is, and
    [load_path] returns [True] again. *)
Lemma second_load_returns_true :
  Demo.load_path [] "sitea-only" = (Return (true, Demo.registry_a), []) ∧
  Demo.load_path Demo.registry_a "sitea-only" = (Return (true, Demo.registry_a), []).
Proof. split; reflexivity. Qed.

(** * Further properties of the registry *)

(** ** Dictionaries, continued *)

Section dict_more_facts.
Context {V : Type}.
Implicit Types (d other : list (string * V)) (k : string) (v : V).

Lemma filter_all {A} (P : A → Prop) `{∀ x, Decision (P x)} (l : list A) :
  (∀ x, x ∈ l → P x) → filter P l = l.
Proof.
  induction l as [|x l IH]; intros Hall; [done|].
  rewrite filter_cons_True by (apply Hall; left).
  f_equal. apply IH. intros y Hy. apply Hall. by right.
Qed.

Lemma filter_ext_elem {A} (P1 P2 : A → Prop)
    `{∀ x, Decision (P1 x)} `{∀ x, Decision (P2 x)} (l : list A) :
  (∀ x, x ∈ l → P1 x ↔ P2 x) → filter P1 l = filter P2 l.
Proof.
  induction l as [|x l IH]; intros Hext; [done|].
  rewrite !filter_cons. rewrite IH by (intros y Hy; apply Hext; by right).
  destruct (decide (P1 x)) as [H1|H1], (decide (P2 x)) as [H2|H2]; try done.
  - destruct H2. by apply (Hext x); [left|].
  - destruct H1. by apply (Hext x); [left|].
Qed.

Lemma dict_pop_filter d k :
  dict_ok d → dict_pop d k = filter (λ kv, kv.1 ≠ k) d.
Proof.
  unfold dict_ok, dict_keys. induction d as [|[k' v'] d IH]; [done|].
  rewrite fmap_cons, NoDup_cons. intros [Hk Hd]. cbn [dict_pop fst].
  destruct (decide (k' = k)) as [->|Hne].
  - rewrite filter_cons_False by (simpl; by intros ?).
    symmetry. apply filter_all. intros [k0 v0] Hin. simpl. intros ->.
    apply Hk, list_elem_of_fmap. by exists (k, v0).
  - rewrite filter_cons_True by done. by rewrite IH.
Qed.

Lemma dict_pop_absent d k : dict_get d k = None → dict_pop d k = d.
Proof.
  induction d as [|[k' v'] d IH]; simpl; [done|].
  case_decide; [done|]. intros Hget. by rewrite IH.
Qed.

Lemma dict_get_filter_ne d k k' :
  dict_get (filter (λ kv, kv.1 ≠ k) d) k' =
    if decide (k' = k) then None else dict_get d k'.
Proof.
  induction d as [|[k0 v0] d IH]; [by case_decide|].
  destruct (decide (k0 = k)) as [->|Hne].
  - rewrite filter_cons_False by (simpl; by intros ?). rewrite IH. simpl.
    repeat case_decide; congruence.
  - rewrite filter_cons_True by done. simpl. rewrite IH.
    repeat case_decide; congruence.
Qed.



Lemma dict_update_keys_order d other :
  dict_ok other →
  dict_keys (dict_update d other) =
    dict_keys d ++ filter (λ k, k ∉ dict_keys d) (dict_keys other).
Proof.
  revert d. induction other as [|[k v] other IH]; intros d Hok.
  { rewrite dict_update_nil. unfold dict_keys at 3. simpl. by rewrite app_nil_r. }
  unfold dict_ok in Hok.
  assert (dict_keys ((k, v) :: other) = k :: dict_keys other) as Hcons by done.
  rewrite Hcons in Hok |- *. apply NoDup_cons in Hok as [Hk Hok].
  rewrite dict_update_cons, IH, dict_setitem_keys by done.
  destruct (decide (k ∈ dict_keys d)) as [Hin|Hin].
  - rewrite filter_cons_False by (by intros ?). done.
  - rewrite filter_cons_True by done. rewrite <-app_assoc. simpl. do 2 f_equal.
    apply filter_ext_elem. intros k' Hin'.
    rewrite elem_of_app, list_elem_of_singleton.
    split; [tauto|]. intros Hk' [?| ->]; done.
Qed.
End dict_more_facts.

(** ** Access, removal and merge *)

Section registry_more_facts.
Import StreamlinkPlugins.
Context {Plugin Matcher Finder : Type}.
Context (matchers : Plugin → option (list Matcher)).
Context (pattern_match : Matcher → string → bool).
Context (iter_modules : string → list (Finder * string * bool)).
Context (exec_module : Finder → string → outcome (@PyModule Plugin)).
Context (_PLUGINS_PATH : string).
Implicit Types (self plugins : list (string * Plugin)) (url name key item path : string).

Local Abbreviation plugin_matches := (plugin_matches matchers pattern_match).
Local Abbreviation first_match := (first_match matchers pattern_match).
Local Abbreviation match_url := (match_url matchers pattern_match).
Local Abbreviation _load_from_path := (_load_from_path iter_modules exec_module).
Local Abbreviation load_path := (load_path iter_modules exec_module).
Local Abbreviation __init__ := (__init__ iter_modules exec_module _PLUGINS_PATH).

(** X1. After [self[key] = value], [self[key]] is [value] and [key] is
    loaded; every other name gives what it gave before, a [KeyError]
    included. *)
Theorem getitem_after_setitem self key value item :
  __getitem__ (__setitem__ self key value) item
    = (if decide (item = key) then Return value else __getitem__ self item) ∧
  __contains__ (__setitem__ self key value) item
    = (if decide (item = key) then true else __contains__ self item).
Proof.
  unfold __getitem__, __contains__, __setitem__, dict_getitem, dict_contains.
  rewrite dict_get_setitem.
  destruct (decide (key = item)) as [->|Hne].
  - by rewrite !decide_True by done.
  - by rewrite !decide_False by done.
Qed.

(** X2. [del self[key]] removes the item of that name and nothing else: the
    other items stay, in their order; [self[key]] then raises [KeyError];
    the other names give what they gave before; and for a name that is not
    loaded the registry is left as it is, without an error. *)
Theorem delitem_removes self key :
  dict_ok self →
  __delitem__ self key = filter (λ kv, kv.1 ≠ key) self ∧
  __getitem__ (__delitem__ self key) key = Raise (KeyError key) ∧
  __contains__ (__delitem__ self key) key = false ∧
  (∀ item, item ≠ key →
     __getitem__ (__delitem__ self key) item = __getitem__ self item) ∧
  (__contains__ self key = false → __delitem__ self key = self).
Proof.
  intros Hok. unfold __getitem__, __contains__, __delitem__, dict_getitem,
    dict_contains.
  rewrite dict_pop_filter by done. split_and!.
  - done.
  - rewrite dict_get_filter_ne. by rewrite decide_True.
  - rewrite dict_get_filter_ne. by rewrite decide_True.
  - intros item Hne. rewrite dict_get_filter_ne. by rewrite decide_False.
  - destruct (dict_get self key) eqn:Hget; [done|]. intros _.
    rewrite <-dict_pop_filter by done. by apply dict_pop_absent.
Qed.

(** X3. [update] keeps the names of the registry where they are, gives them
    the plugins of the argument where it has the name, and appends the new
    names in the order of the argument. *)
Theorem update_keeps_positions self plugins :
  dict_ok plugins →
  dict_keys (update self plugins)
    = dict_keys self ++ filter (λ k, k ∉ dict_keys self) (dict_keys plugins) ∧
  (∀ name, dict_get (update self plugins) name =
     match dict_get plugins name with
     | Some plugin => Some plugin
     | None => dict_get self name
     end) ∧
  (dict_ok self → dict_ok (update self plugins)).
Proof.
  intros Hok. unfold update. split_and!.
  - by apply dict_update_keys_order.
  - intros name. by apply dict_get_update.
  - apply dict_update_ok.
Qed.

Lemma load_path_Return_inv self path b self' log :
  load_path self path = (Return (b, self'), log) →
  ∃ plugins,
    _load_from_path path = (Return plugins, log) ∧
    b = dict_bool plugins ∧ self' = update self plugins.
Proof.
  unfold StreamlinkPlugins.load_path.
  intros (plugins & l1 & l2 & Hrun & [= <- <- <-] & ->)%bind_Return_inv.
  exists plugins. by rewrite app_nil_r.
Qed.


(** X5. A new registry with [builtin] holds the batch of the built-in path
    and nothing else, in the order of the batch, and its construction fails
    exactly as the load of that batch does; without [builtin] it is empty. *)
Theorem init_loads_builtin :
  __init__ true = _load_from_path _PLUGINS_PATH ∧
  __init__ false = (Return [], []) ∧
  (∀ self log, __init__ true = (Return self, log) →
     batch_order self ∧ dict_ok self).
Proof.
  assert (__init__ true = _load_from_path _PLUGINS_PATH) as Heq.
  { unfold StreamlinkPlugins.__init__, load_builtin, StreamlinkPlugins.load_path.
    destruct (_load_from_path _PLUGINS_PATH) as [[plugins|e] log] eqn:Hrun; [|done].
    pose proof (load_from_path_Return _ _ _ _ _ Hrun) as (_ & Hok & _).
    rewrite !bind_Return_log. simpl. rewrite !app_nil_r. do 2 f_equal.
    unfold update. rewrite dict_update_fresh; [done..|].
    intros k _ Hk. by apply elem_of_nil in Hk. }
  split_and!; [done..|].
  intros self log Hinit. rewrite Heq in Hinit.
  by pose proof (load_from_path_Return _ _ _ _ _ Hinit) as (? & ? & _).
Qed.

(** X6. What resolution returns is loaded: the plugin is the one held under
    the returned name, the name is among the names of the registry, and the
    only record logged is the one that names the plugin and the URL. *)
Theorem match_url_returns_loaded self url name plugin log :
  match_url self url = (Return (Some (name, plugin)), log) →
  __getitem__ self name = Return plugin ∧
  __contains__ self name = true ∧
  name ∈ get_names self ∧
  log = [found_record name url].
Proof.
  unfold StreamlinkPlugins.match_url. rewrite match_plugins_first_match.
  destruct (first_match url self) as [[name' plugin']|]; [|done].
  destruct (dict_get self name') as [found|] eqn:Hget; [|done].
  intros [= -> -> <-].
  assert (__contains__ self name = true) as Hin
    by (unfold __contains__, dict_contains; by rewrite Hget).
  split_and!; [|done| |done].
  - unfold __getitem__, dict_getitem. by rewrite Hget.
  - unfold get_names. rewrite merge_sort_Permutation. by apply contains_keys.
Qed.

Lemma first_match_filter_other url self name plugin key :
  first_match url self = Some (name, plugin) → key ≠ name →
  first_match url (filter (λ kv, kv.1 ≠ key) self) = Some (name, plugin).
Proof.
  intros Hfirst Hne. induction self as [|[n p] self IH]; [done|].
  simpl in Hfirst. destruct (decide (n = key)) as [->|Hn].
  - rewrite filter_cons_False by (simpl; by intros ?).
    destruct (plugin_matches p url); [|by apply IH]. congruence.
  - rewrite filter_cons_True by done. simpl.
    destruct (plugin_matches p url); [done | by apply IH].
Qed.

(** X7. Removing a plugin other than the one a URL resolves to leaves the
    resolution of that URL as it is.  Removing the one it resolves to makes
    the URL resolve as in the part of the registry that followed it. *)
Theorem delitem_then_match_url self url name plugin log :
  dict_ok self →
  match_url self url = (Return (Some (name, plugin)), log) →
  (∀ key, key ≠ name →
     match_url (__delitem__ self key) url = (Return (Some (name, plugin)), log)) ∧
  ∃ before after,
    self = before ++ (name, plugin) :: after ∧
    __delitem__ self name = before ++ after ∧
    match_url (__delitem__ self name) url = match_url after url.
Proof.
  intros Hok Hrun. rewrite match_url_first_match_eq in Hrun by done.
  destruct (first_match url self) as [[name' plugin']|] eqn:Hfirst; [|done].
  injection Hrun as -> -> <-. split.
  - intros key Hne. unfold __delitem__.
    rewrite match_url_first_match_eq by (by apply dict_pop_ok).
    rewrite dict_pop_filter by done.
    by rewrite (first_match_filter_other _ _ _ _ _ Hfirst Hne).
  - pose proof Hfirst as (before & after & -> & Hm & Hbefore)%first_match_Some.
    exists before, after. split; [done|].
    pose proof Hok as Hnodup. unfold dict_ok, dict_keys in Hnodup.
    rewrite fmap_app, fmap_cons in Hnodup.
    apply NoDup_app in Hnodup as (Hb & Hdisj & [Hfresh Ha]%NoDup_cons).
    assert (__delitem__ (before ++ (name, plugin) :: after) name = before ++ after)
      as Hdel.
    { unfold __delitem__. rewrite dict_pop_filter by done.
      rewrite filter_app, filter_cons_False by (simpl; by intros ?).
      rewrite !filter_all; [done| |].
      - intros [k v] Hin. simpl. intros ->. apply Hfresh.
        apply list_elem_of_fmap. by exists (name, v).
      - intros [k v] Hin. simpl. intros ->. apply (Hdisj name); [|left].
        apply list_elem_of_fmap. by exists (name, v). }
    split; [done|]. rewrite Hdel.
    rewrite !match_url_first_match_eq; cycle 1.
    { done. }
    { unfold dict_ok, dict_keys. rewrite fmap_app. apply NoDup_app.
      split_and!; [done| |done]. intros k Hk Hk'. apply (Hdisj k); [done|by right]. }
    rewrite first_match_app.
    by rewrite (proj2 (first_match_None _ _ url before) Hbefore).
Qed.
End registry_more_facts.

(** ** The order and the failures of a batch load *)

Section load_more_facts.
Import StreamlinkPlugins.
Context {Plugin Finder : Type}.
Context (iter_modules : string → list (Finder * string * bool)).
Context (exec_module : Finder → string → outcome (@PyModule Plugin)).
Implicit Types (self plugins tDash tHls tHttp : list (string * Plugin)).
Implicit Types (name path : string) (mods : list (Finder * string * bool)).

Local Abbreviation _load_plugin_from_finder := (_load_plugin_from_finder exec_module).
Local Abbreviation load_modules := (load_modules exec_module).
Local Abbreviation _load_from_path := (_load_from_path iter_modules exec_module).
Local Abbreviation load_path := (load_path iter_modules exec_module).
Local Abbreviation exported := (exported exec_module).
Local Abbreviation exports := (exports exec_module).
Local Abbreviation benign := (benign exec_module).
Local Abbreviation failure_record := (failure_record exec_module).
Local Abbreviation raised_by := (raised_by exec_module).
Local Abbreviation module_names := (@module_names Finder).

(** The names of the modules that export a plugin class, in order. *)
Local Abbreviation loaded_names mods :=
  (module_names (filter (λ entry, exports entry = true) mods)).

Lemma loaded_names_cons finder name ispkg mods :
  loaded_names ((finder, name, ispkg) :: mods) =
    match exported finder name with
    | Some _ => name :: loaded_names mods
    | None => loaded_names mods
    end.
Proof.
  destruct (exported finder name) eqn:Hexp.
  - by rewrite filter_cons_True
      by (unfold StreamlinkPlugins.exports; simpl; by rewrite Hexp).
  - by rewrite filter_cons_False
      by (unfold StreamlinkPlugins.exports; simpl; by rewrite Hexp).
Qed.

Lemma elem_of_loaded_names mods name :
  name ∈ loaded_names mods ↔
  ∃ finder ispkg plugin,
    (finder, name, ispkg) ∈ mods ∧ exported finder name = Some plugin.
Proof.
  unfold StreamlinkPlugins.module_names. rewrite list_elem_of_fmap. split.
  - intros ([[finder n] ispkg] & -> & [Hexp Hin]%list_elem_of_filter).
    unfold StreamlinkPlugins.exports in Hexp. simpl in *.
    destruct (exported finder n) as [plugin|] eqn:Hp; [|done].
    by exists finder, ispkg, plugin.
  - intros (finder & ispkg & plugin & Hin & Hexp). exists (finder, name, ispkg).
    split; [done|]. apply list_elem_of_filter. split; [|done].
    unfold StreamlinkPlugins.exports. simpl. by rewrite Hexp.
Qed.

(** The loop appends to [plugins], in the order of the modules, the names
    other than [dash], [hls] and [http] of the modules that export a plugin
    class, when the names are distinct and new. *)
Lemma load_modules_specific_keys mods plugins tDash tHls tHttp
    plugins' tDash' tHls' tHttp' log :
  load_modules mods plugins tDash tHls tHttp
    = (Return (plugins', tDash', tHls', tHttp'), log) →
  NoDup (module_names mods) →
  (∀ n, n ∈ module_names mods → n ∉ dict_keys plugins) →
  dict_keys plugins' =
    dict_keys plugins ++ filter (λ n, is_fallback n = false) (loaded_names mods).
Proof.
  revert plugins tDash tHls tHttp log.
  induction mods as [|[[finder name] ispkg] mods IH];
    intros plugins tDash tHls tHttp log Hrun Hnodup Hfresh.
  { injection Hrun as <- _ _ _ _. by rewrite app_nil_r. }
  cbn [StreamlinkPlugins.load_modules] in Hrun.
  apply bind_Return_inv in Hrun as (lookup & l1 & l2 & Hlookup & Hrun & ->).
  apply (load_plugin_Return _ _ _ ispkg) in Hlookup.
  assert (module_names ((finder, name, ispkg) :: mods) = name :: module_names mods)
    as Hnames by done.
  rewrite Hnames in Hnodup, Hfresh. apply NoDup_cons in Hnodup as [Hname Hnodup].
  assert (∀ n, n ∈ module_names mods → n ∉ dict_keys plugins) as Hfresh'.
  { intros n Hn. apply Hfresh. by right. }
  rewrite loaded_names_cons.
  destruct lookup as [[mod_ plugin]|].
  - destruct Hlookup as [-> ->].
    assert (is_fallback name = true ↔ name = "dash" ∨ name = "hls" ∨ name = "http")
      as Hfb.
    { unfold is_fallback. rewrite bool_decide_eq_true, !elem_of_cons, elem_of_nil.
      tauto. }
    repeat case_decide.
    + rewrite filter_cons_False by (rewrite (proj2 Hfb); auto). by eapply IH.
    + rewrite filter_cons_False by (rewrite (proj2 Hfb); auto). by eapply IH.
    + rewrite filter_cons_False by (rewrite (proj2 Hfb); auto). by eapply IH.
    + apply bind_Return_inv in Hrun as ([] & l3 & l4 & _ & Hrun & _).
      rewrite filter_cons_True.
      2: { destruct (is_fallback name) eqn:Hn; [|done].
           destruct (proj1 Hfb eq_refl) as [?|[?|?]]; done. }
      apply IH in Hrun; [|done|].
      * rewrite Hrun, dict_setitem_keys.
        rewrite decide_False by (apply Hfresh; left). by rewrite <-app_assoc.
      * intros n Hn. rewrite dict_setitem_keys.
        rewrite decide_False by (apply Hfresh; left).
        rewrite elem_of_app, list_elem_of_singleton.
        intros [?| ->]; [by eapply Hfresh'|done].
  - unfold StreamlinkPlugins.exports in Hlookup. simpl in Hlookup.
    destruct (exported finder name); [done|]. by eapply IH.
Qed.

Lemma fallback_keys name mods (t : list (string * Plugin)) :
  holds_only name t →
  (is_Some (dict_get t name) ↔ name ∈ loaded_names mods) →
  dict_keys t = filter (λ n, n ∈ loaded_names mods) [name].
Proof.
  intros [->|[plugin ->]] Hiff.
  - rewrite filter_cons_False; [done|]. intros Hin. apply Hiff in Hin.
    by destruct Hin.
  - rewrite filter_cons_True; [done|]. apply Hiff. simpl.
    rewrite decide_True by done. by eexists.
Qed.

(** X8. With distinct module names, a batch load that returns leaves the
    plugins in this order: the names other than [dash], [hls] and [http]
    in the order in which their modules were found, then those of [hls],
    [dash] and [http] that were found. *)
Theorem load_keeps_discovery_order path plugins log :
  _load_from_path path = (Return plugins, log) →
  NoDup (module_names (iter_modules path)) →
  dict_keys plugins =
    filter (λ n, is_fallback n = false) (loaded_names (iter_modules path)) ++
    filter (λ n, n ∈ loaded_names (iter_modules path)) ["hls"; "dash"; "http"].
Proof.
  intros (specific & tDash & tHls & tHttp & Hloop & Hshape & ->)%load_from_path_inv
    Hnodup.
  pose proof (load_modules_specific_keys _ _ _ _ _ _ _ _ _ _ Hloop Hnodup) as Hkeys.
  pose proof (load_modules_held _ _ _ _ _ _ _ _ _ _ _ Hloop)
    as (_ & Horigin & Hheld).
  assert (∀ name, is_Some (held specific tDash tHls tHttp name) ↔
                  name ∈ loaded_names (iter_modules path)) as Hiff.
  { intros name. rewrite elem_of_loaded_names. split.
    - intros [plugin [Hstart|(finder & ispkg & ? & ?)]%Horigin].
      + unfold held in Hstart. by repeat case_decide.
      + by exists finder, ispkg, plugin.
    - intros (finder & ispkg & plugin & Hin & Hexp). exists plugin.
      by eapply Hheld. }
  destruct Hshape as (Hok & Hspec & Hdash & Hhls & Hhttp).
  unfold dict_keys in *. rewrite !fmap_app, Hkeys.
  2: { intros n _ Hn. by apply elem_of_nil in Hn. }
  simpl. f_equal.
  change ["hls"; "dash"; "http"] with (["hls"] ++ ["dash"] ++ ["http"]).
  rewrite !filter_app. f_equal; [|f_equal].
  - apply fallback_keys; [done|]. rewrite <-Hiff. unfold held.
    by rewrite decide_False, decide_True by done.
  - apply fallback_keys; [done|]. rewrite <-Hiff. unfold held.
    by rewrite decide_True by done.
  - apply fallback_keys; [done|]. rewrite <-Hiff. unfold held.
    by rewrite !decide_False, decide_True by done.
Qed.

Lemma load_plugin_raises finder name ispkg e :
  raised_by (finder, name, ispkg) = Some e →
  _load_plugin_from_finder name finder = (Raise e, []).
Proof.
  unfold StreamlinkPlugins.raised_by, StreamlinkPlugins._load_plugin_from_finder.
  simpl. destruct (exec_module finder _) as [mod_|[]]; try by intros [= <-].
  by destruct (__plugin__ mod_) as [[]|]; intros [= <-].
Qed.

Lemma load_modules_raises good bad rest e plugins tDash tHls tHttp :
  Forall benign good →
  raised_by bad = Some e →
  ∃ log,
    load_modules (good ++ bad :: rest) plugins tDash tHls tHttp = (Raise e, log) ∧
    filter (λ r, is_error r = true) log = omap failure_record good.
Proof.
  intros Hbenign Hraised. revert plugins tDash tHls tHttp.
  induction Hbenign as [|[[finder name] ispkg] good Hentry _ IH];
    intros plugins tDash tHls tHttp.
  { destruct bad as [[finder name] ispkg]. exists []. split; [|done].
    cbn [app StreamlinkPlugins.load_modules].
    by rewrite (load_plugin_raises _ _ _ _ Hraised). }
  cbn [app omap list_omap StreamlinkPlugins.load_modules].
  destruct (exported finder name) as [plugin|] eqn:Hexp.
  - assert (failure_record (finder, name, ispkg) = None) as ->.
    { unfold StreamlinkPlugins.failure_record, StreamlinkPlugins.exported in *.
      simpl. by destruct (exec_module finder _) as [|[]]. }
    destruct (load_plugin_exported _ _ _ _ Hexp) as [mod_ Hload].
    rewrite Hload, !bind_Return_l.
    repeat case_decide; try apply IH.
    destruct (dict_contains plugins name).
    + unfold emit. rewrite !bind_Return_log.
      edestruct IH as (log & -> & Herr).
      eexists. split; [done|]. simpl. by rewrite filter_cons_False.
    + unfold ret. rewrite !bind_Return_l. apply IH.
  - destruct (failure_record (finder, name, ispkg)) as [r|] eqn:Hfail.
    + destruct (load_plugin_failed _ _ _ _ _ Hfail) as (Hload & _ & Herror).
      rewrite Hload, bind_Return_log.
      edestruct IH as (log & -> & Herr).
      eexists. split; [done|]. simpl.
      rewrite filter_cons_True by done. by rewrite Herr.
    + rewrite (load_plugin_silent _ _ _ ispkg), bind_Return_l by done. apply IH.
Qed.

(** X9. A batch load raises the exception of the first module that ends
    with one (other than an [ImportError]): the modules after it are not
    loaded, the plugins of the modules before it are dropped, the registry
    is not touched, and the records are those of the modules before it. *)
Theorem load_aborts_at_first_error path good bad rest e :
  iter_modules path = good ++ bad :: rest →
  Forall benign good →
  raised_by bad = Some e →
  ∃ log,
    _load_from_path path = (Raise e, log) ∧
    (∀ self, load_path self path = (Raise e, log)) ∧
    filter (λ r, is_error r = true) log = omap failure_record good.
Proof.
  intros Hpath Hbenign Hraised.
  destruct (load_modules_raises good bad rest e [] [] [] [] Hbenign Hraised)
    as (log & Hloop & Herr).
  assert (_load_from_path path = (Raise e, log)) as Hrun.
  { unfold StreamlinkPlugins._load_from_path. by rewrite Hpath, Hloop. }
  exists log. split_and!; [done| |done].
  intros self. unfold StreamlinkPlugins.load_path. by rewrite Hrun.
Qed.
End load_more_facts.

(** ** The iterators over the plugins *)

Section iterators_facts.
Import StreamlinkPlugins.
Context {Plugin Matcher PluginArguments : Type}.
Context (matchers : Plugin → option (list Matcher)).
Context (arguments : Plugin → option PluginArguments).
Context (arguments_bool : PluginArguments → bool).
Implicit Types (self : list (string * Plugin)) (name : string).

Local Abbreviation iter_matchers := (iter_matchers matchers).
Local Abbreviation iter_arguments := (iter_arguments arguments arguments_bool).

(** X10. [iter_matchers] yields the name and the matchers of exactly the
    loaded plugins whose matchers are neither [None] nor empty, in the order
    of the registry and once per name. *)
Theorem iter_matchers_yields self :
  (∀ name ms, (name, ms) ∈ iter_matchers self ↔
     ms ≠ [] ∧ ∃ plugin, (name, plugin) ∈ self ∧ matchers plugin = Some ms) ∧
  (iter_matchers self).*1 `sublist_of` dict_keys self ∧
  (dict_ok self → NoDup (iter_matchers self).*1).
Proof.
  assert ((iter_matchers self).*1 `sublist_of` dict_keys self) as Hsub.
  { unfold dict_keys, StreamlinkPlugins.iter_matchers.
    induction self as [|[n p] self IH]; [done|]. cbn [omap list_omap].
    destruct (matchers p) as [[|m ms]|]; simpl;
      [by apply sublist_cons | by apply sublist_skip | by apply sublist_cons]. }
  split_and!; [|done|by intros ?; eapply sublist_NoDup].
  intros name ms. unfold StreamlinkPlugins.iter_matchers.
  rewrite list_elem_of_omap. split.
  - intros ([n p] & Hin & Hf). destruct (matchers p) as [[|m ms']|] eqn:Hp; try done.
    injection Hf as <- <-. split; [done|]. by exists p.
  - intros (Hne & p & Hin & Hp). exists (name, p). split; [done|].
    rewrite Hp. by destruct ms.
Qed.

(** X11. [iter_arguments] yields the name and the arguments of exactly the
    loaded plugins whose arguments are there and true, in the order of the
    registry and once per name. *)
Theorem iter_arguments_yields self :
  (∀ name args, (name, args) ∈ iter_arguments self ↔
     arguments_bool args = true ∧
     ∃ plugin, (name, plugin) ∈ self ∧ arguments plugin = Some args) ∧
  (iter_arguments self).*1 `sublist_of` dict_keys self ∧
  (dict_ok self → NoDup (iter_arguments self).*1).
Proof.
  assert ((iter_arguments self).*1 `sublist_of` dict_keys self) as Hsub.
  { unfold dict_keys, StreamlinkPlugins.iter_arguments.
    induction self as [|[n p] self IH]; [done|]. cbn [omap list_omap].
    destruct (arguments p) as [args|]; [destruct (arguments_bool args)|]; simpl;
      [by apply sublist_skip | by apply sublist_cons..]. }
  split_and!; [|done|by intros ?; eapply sublist_NoDup].
  intros name args. unfold StreamlinkPlugins.iter_arguments.
  rewrite list_elem_of_omap. split.
  - intros ([n p] & Hin & Hf). destruct (arguments p) as [args'|] eqn:Hp; [|done].
    destruct (arguments_bool args') eqn:Hb; [|done].
    injection Hf as <- <-. split; [done|]. by exists p.
  - intros (Hb & p & Hin & Hp). exists (name, p). split; [done|].
    by rewrite Hp, Hb.
Qed.
End iterators_facts.

(** ** Restoring the registry from a snapshot *)

Section store_more_facts.
Context {Plugin Finder : Type}.
Context (iter_modules : string → list (Finder * string * bool)).
Context (exec_module : Finder → string → outcome (@StreamlinkPlugins.PyModule Plugin)).
Implicit Types (self : Store.object) (σ : gmap positive (list (string * Plugin))).

Local Abbreviation run_call := (Store.run_call iter_modules exec_module).
Local Abbreviation run_calls := (Store.run_calls iter_modules exec_module).



End store_more_facts.

(** ** Opening and closing an HTTP stream *)

Section stream_more_facts.
Import HTTPStream.
Context {World : Type}.
Context (request : @IO World (@value World)).
Context (iter_wrapper thread_wrapper : @value World → @IO World (@value World)).
Implicit Types (self : @stream World) (w : World) (v r : @value World).

Local Abbreviation open := (open request iter_wrapper thread_wrapper).

(** The world after [v.close()] was tried, if [v] has a [close]. *)
Local Abbreviation closed v w :=
  (if hasattr_close v then (call_close v w).2 else w).

Lemma close_world self w :
  close self w = (Return tt, closed (fd self) (closed (res self) w)).
Proof.
  unfold close, io_bind, try_except_pass, io_ret.
  destruct (hasattr_close (res self)).
  - destruct (call_close (res self) w) as [[[]|e] w1]; simpl;
      destruct (hasattr_close (fd self)); try done;
      by destruct (call_close (fd self) w1) as [[[]|e'] w2].
  - destruct (hasattr_close (fd self)); [|done].
    by destruct (call_close (fd self) w) as [[[]|e'] w2].
Qed.

(** X13. [close] calls [close] on the response first and on the stream
    handle second, each once and only if it has the method; the handle is
    closed also when closing the response raised; and on a stream that was
    never opened no call is made. *)
Theorem close_closes_response_then_handle self w :
  close self w = (Return tt, closed (fd self) (closed (res self) w)) ∧
  ∀ buffered, close (__init__ buffered) w = (Return tt, w).
Proof. split; [apply close_world | done]. Qed.

(** X14. [open] never changes [buffered].  When the request raises, [open]
    raises the same exception and leaves the stream as it was.  When the
    request returns, the response is in [res] whether the wrappers are
    then built or fail, and if [open] returns, it returns what it left in
    [fd]. *)
Theorem open_assigns_fields self w :
  let '(result, self', w') := open self w in
  buffered self' = buffered self ∧
  match request w with
  | (Raise e, w1) => result = Raise e ∧ self' = self ∧ w' = w1
  | (Return r, _) =>
      res self' = r ∧
      match result with
      | Return v => fd self' = v
      | Raise _ => True
      end
  end.
Proof.
  unfold HTTPStream.open. destruct (request w) as [[r|e] w1]; [|done].
  destruct (iter_wrapper r w1) as [[f|e] w2]; [|done]. simpl.
  destruct (buffered self); [|done].
  by destruct (thread_wrapper f w2) as [[t|e] w3].
Qed.

(** X15. After an [open] that returned, [close] closes the response that
    the request gave and then the handle that [open] returned. *)
Theorem open_then_close self w v self' w' :
  open self w = (Return v, self', w') →
  ∃ r w1,
    request w = (Return r, w1) ∧
    close self' w' = (Return tt, closed v (closed r w')).
Proof.
  unfold HTTPStream.open. destruct (request w) as [[r|e] w1]; [|done].
  destruct (iter_wrapper r w1) as [[f|e] w2]; [|done]. simpl.
  destruct (buffered self).
  - destruct (thread_wrapper f w2) as [[t|e] w3]; [|done].
    intros [= <- <- <-]. exists r, w1. split; [done|]. by rewrite close_world.
  - intros [= <- <- <-]. exists r, w1. split; [done|]. by rewrite close_world.
Qed.
End stream_more_facts.

(** ** Names and records of a load *)

Section load_names_facts.
Import StreamlinkPlugins.
Context {Plugin Matcher Finder : Type}.
Context (matchers : Plugin → option (list Matcher)).
Context (pattern_match : Matcher → string → bool).
Context (iter_modules : string → list (Finder * string * bool)).
Context (exec_module : Finder → string → outcome (@PyModule Plugin)).
Implicit Types (self plugins tDash tHls tHttp : list (string * Plugin)).
Implicit Types (name path : string) (mods : list (Finder * string * bool)).

Local Abbreviation match_url := (match_url matchers pattern_match).
Local Abbreviation _load_plugin_from_finder := (_load_plugin_from_finder exec_module).
Local Abbreviation load_modules := (load_modules exec_module).
Local Abbreviation _load_from_path := (_load_from_path iter_modules exec_module).
Local Abbreviation load_path := (load_path iter_modules exec_module).
Local Abbreviation exported := (exported exec_module).
Local Abbreviation exports := (exports exec_module).
Local Abbreviation failure_record := (failure_record exec_module).
Local Abbreviation module_names := (@module_names Finder).
Local Abbreviation loaded_names mods :=
  (module_names (filter (λ entry, exports entry = true) mods)).

(** X16. After [clear] the registry has no name and resolves no URL, and a
    load then leaves in it the batch of the path and nothing else, in the
    order of the batch. *)
Theorem clear_then_load self path plugins log :
  _load_from_path path = (Return plugins, log) →
  get_names (clear self) = [] ∧
  (∀ url, match_url (clear self) url = (Return None, [])) ∧
  load_path (clear self) path = (Return (dict_bool plugins, plugins), log) ∧
  batch_order plugins.
Proof.
  intros Hrun.
  pose proof (load_from_path_Return _ _ _ _ _ Hrun) as (Horder & Hok & _).
  split_and!; [done..| |done].
  rewrite (load_path_Return _ _ _ _ _ _ Hrun).
  do 3 f_equal. unfold update, clear. rewrite dict_update_fresh; [done..|].
  intros k _ Hk. by apply elem_of_nil in Hk.
Qed.

Lemma elem_of_dict_keys (d : list (string * Plugin)) name :
  name ∈ dict_keys d ↔ is_Some (dict_get d name).
Proof.
  destruct (dict_get d name) eqn:Hget.
  - split; [by eexists|]. intros _.
    destruct (decide (name ∈ dict_keys d)) as [|Hn]; [done|].
    apply dict_get_None in Hn. congruence.
  - apply dict_get_None in Hget. split; [done|]. by intros [? ?].
Qed.

(** X17. A load removes no name: with distinct module names, the names of
    the registry after a load that returns are its names before and the
    names of the modules that export a plugin class. *)
Theorem load_path_names self path b self' log :
  load_path self path = (Return (b, self'), log) →
  NoDup (module_names (iter_modules path)) →
  ∀ name,
    name ∈ get_names self' ↔
    name ∈ get_names self ∨ name ∈ loaded_names (iter_modules path).
Proof.
  intros (plugins & Hrun & _ & ->)%load_path_Return_inv Hnodup name.
  unfold get_names, update. rewrite !merge_sort_Permutation, dict_update_keys.
  apply or_iff_compat_l. rewrite elem_of_dict_keys, elem_of_loaded_names. split.
  - intros [plugin Hget].
    destruct (load_from_path_origin _ _ _ _ _ _ _ Hrun Hget)
      as (finder & ispkg & Hin & Hexp).
    by exists finder, ispkg, plugin.
  - intros (finder & ispkg & plugin & Hin & Hexp). exists plugin.
    by eapply load_from_path_exported.
Qed.

Lemma load_plugin_log name finder ispkg lookup l :
  _load_plugin_from_finder name finder = (Return lookup, l) →
  l = match failure_record (finder, name, ispkg) with
      | Some r => [r]
      | None => []
      end.
Proof.
  unfold StreamlinkPlugins._load_plugin_from_finder,
    StreamlinkPlugins.failure_record. simpl.
  destruct (exec_module finder _) as [mod_|[]]; try done.
  - destruct (__plugin__ mod_) as [[]|]; try done; by intros [= _ <-].
  - by intros [= _ <-].
Qed.

Lemma load_modules_log mods plugins tDash tHls tHttp st' log :
  load_modules mods plugins tDash tHls tHttp = (Return st', log) →
  NoDup (module_names mods) →
  (∀ n, n ∈ module_names mods → n ∉ dict_keys plugins) →
  log = omap failure_record mods.
Proof.
  revert plugins tDash tHls tHttp log.
  induction mods as [|[[finder name] ispkg] mods IH];
    intros plugins tDash tHls tHttp log Hrun Hnodup Hfresh.
  { by injection Hrun as _ <-. }
  cbn [StreamlinkPlugins.load_modules] in Hrun.
  apply bind_Return_inv in Hrun as (lookup & l1 & l2 & Hlookup & Hrun & ->).
  pose proof (load_plugin_log _ _ ispkg _ _ Hlookup) as ->.
  assert (module_names ((finder, name, ispkg) :: mods) = name :: module_names mods)
    as Hnames by done.
  rewrite Hnames in Hnodup, Hfresh. apply NoDup_cons in Hnodup as [Hname Hnodup].
  assert (∀ n, n ∈ module_names mods → n ∉ dict_keys plugins) as Hfresh'.
  { intros n Hn. apply Hfresh. by right. }
  cbn [omap list_omap].
  assert (l2 = omap failure_record mods) as ->; [|by destruct (failure_record _)].
  destruct lookup as [[mod_ plugin]|]; [|by eapply IH].
  repeat case_decide; try by eapply IH.
  assert (dict_contains plugins name = false) as Hnew.
  { unfold dict_contains.
    by rewrite (proj2 (dict_get_None plugins name) (Hfresh name ltac:(left))). }
  rewrite Hnew in Hrun. unfold ret in Hrun. rewrite bind_Return_l in Hrun.
  eapply IH; [done..|]. intros n Hn. rewrite dict_setitem_keys.
  rewrite decide_False by (apply Hfresh; left).
  rewrite elem_of_app, list_elem_of_singleton.
  intros [?| ->]; [by eapply Hfresh'|done].
Qed.

(** X18. With distinct module names, a load that returns logs one [ERROR]
    record for each module that failed with an [ImportError], in their
    order, and nothing else, whatever the registry holds: replacing a
    plugin that is already registered is not logged. *)
Theorem load_path_log self path b self' log :
  load_path self path = (Return (b, self'), log) →
  NoDup (module_names (iter_modules path)) →
  log = omap failure_record (iter_modules path).
Proof.
  intros (plugins & Hrun & _ & _)%load_path_Return_inv Hnodup.
  apply load_from_path_inv in Hrun as (? & ? & ? & ? & Hloop & _).
  eapply load_modules_log; [done..|]. intros n _ Hn. by apply elem_of_nil in Hn.
Qed.
End load_names_facts.

(** ** Instances of the further properties in the concrete worlds *)

(** Site A's plugin is removed from a registry of two. *)
Lemma delitem_removes_witness :
  dict_ok Demo.registry_ab ∧
  StreamlinkPlugins.__delitem__ Demo.registry_ab "sitea"
    = filter (λ kv, kv.1 ≠ "sitea") Demo.registry_ab ∧
  StreamlinkPlugins.__getitem__
      (StreamlinkPlugins.__delitem__ Demo.registry_ab "sitea") "sitea"
    = Raise (KeyError "sitea") ∧
  StreamlinkPlugins.__contains__
      (StreamlinkPlugins.__delitem__ Demo.registry_ab "sitea") "sitea" = false ∧
  (∀ item, item ≠ "sitea" →
     StreamlinkPlugins.__getitem__
         (StreamlinkPlugins.__delitem__ Demo.registry_ab "sitea") item
       = StreamlinkPlugins.__getitem__ Demo.registry_ab item) ∧
  (StreamlinkPlugins.__contains__ Demo.registry_ab "sitea" = false →
   StreamlinkPlugins.__delitem__ Demo.registry_ab "sitea" = Demo.registry_ab).
Proof.
  assert (dict_ok Demo.registry_ab) as Hok
    by (apply (bool_decide_unpack _); vm_compute; exact I).
  split; [exact Hok|]. exact (delitem_removes Demo.registry_ab "sitea" Hok).
Defined.

(** The generic plugins are registered and a batch with site A's plugin and
    the generic ones is merged: the generic names stay first. *)
Lemma update_keeps_positions_witness :
  dict_ok Demo.batch ∧
  dict_keys (StreamlinkPlugins.update Demo.fallbacks Demo.batch)
    = dict_keys Demo.fallbacks
      ++ filter (λ k, k ∉ dict_keys Demo.fallbacks) (dict_keys Demo.batch) ∧
  (∀ name, dict_get (StreamlinkPlugins.update Demo.fallbacks Demo.batch) name =
     match dict_get Demo.batch name with
     | Some plugin => Some plugin
     | None => dict_get Demo.fallbacks name
     end) ∧
  (dict_ok Demo.fallbacks →
   dict_ok (StreamlinkPlugins.update Demo.fallbacks Demo.batch)).
Proof.
  assert (dict_ok Demo.batch) as Hok
    by (apply (bool_decide_unpack _); vm_compute; exact I).
  split; [exact Hok|].
  exact (update_keeps_positions Demo.fallbacks Demo.batch Hok).
Defined.

Example update_keys :
  dict_keys (StreamlinkPlugins.update Demo.fallbacks Demo.batch)
  = ["hls"; "dash"; "http"; "sitea"].
Proof. reflexivity. Qed.


(** The media URL resolves to [hls] in the batch. *)
Lemma match_url_returns_loaded_witness :
  StreamlinkPlugins.match_url Demo.matchers Demo.pattern_match
    Demo.batch Demo.url_media
    = (Return (Some ("hls", Demo.HLS)),
       [StreamlinkPlugins.found_record "hls" Demo.url_media]) ∧
  StreamlinkPlugins.__getitem__ Demo.batch "hls" = Return Demo.HLS ∧
  StreamlinkPlugins.__contains__ Demo.batch "hls" = true ∧
  "hls" ∈ StreamlinkPlugins.get_names Demo.batch ∧
  [StreamlinkPlugins.found_record "hls" Demo.url_media]
    = [StreamlinkPlugins.found_record "hls" Demo.url_media].
Proof.
  assert (StreamlinkPlugins.match_url Demo.matchers Demo.pattern_match
            Demo.batch Demo.url_media
          = (Return (Some ("hls", Demo.HLS)),
             [StreamlinkPlugins.found_record "hls" Demo.url_media])) as Hrun
    by reflexivity.
  split; [exact Hrun|].
  exact (match_url_returns_loaded Demo.matchers Demo.pattern_match
           Demo.batch Demo.url_media "hls" Demo.HLS _ Hrun).
Defined.

(** The media URL resolves to [hls] in the batch; without [hls] it resolves
    as in the items after it, to [dash]. *)
Lemma delitem_then_match_url_witness :
  (dict_ok Demo.batch ∧
   StreamlinkPlugins.match_url Demo.matchers Demo.pattern_match
     Demo.batch Demo.url_media
     = (Return (Some ("hls", Demo.HLS)),
        [StreamlinkPlugins.found_record "hls" Demo.url_media])) ∧
  (∀ key, key ≠ "hls" →
     StreamlinkPlugins.match_url Demo.matchers Demo.pattern_match
       (StreamlinkPlugins.__delitem__ Demo.batch key) Demo.url_media
     = (Return (Some ("hls", Demo.HLS)),
        [StreamlinkPlugins.found_record "hls" Demo.url_media])) ∧
  ∃ before after,
    Demo.batch = before ++ ("hls", Demo.HLS) :: after ∧
    StreamlinkPlugins.__delitem__ Demo.batch "hls" = before ++ after ∧
    StreamlinkPlugins.match_url Demo.matchers Demo.pattern_match
      (StreamlinkPlugins.__delitem__ Demo.batch "hls") Demo.url_media
    = StreamlinkPlugins.match_url Demo.matchers Demo.pattern_match
        after Demo.url_media.
Proof.
  assert (dict_ok Demo.batch) as Hok
    by (apply (bool_decide_unpack _); vm_compute; exact I).
  assert (StreamlinkPlugins.match_url Demo.matchers Demo.pattern_match
            Demo.batch Demo.url_media
          = (Return (Some ("hls", Demo.HLS)),
             [StreamlinkPlugins.found_record "hls" Demo.url_media])) as Hrun
    by reflexivity.
  split; [exact (conj Hok Hrun)|].
  exact (delitem_then_match_url Demo.matchers Demo.pattern_match
           Demo.batch Demo.url_media "hls" Demo.HLS _ Hok Hrun).
Defined.

Example match_url_without_hls :
  Demo.match_url (StreamlinkPlugins.__delitem__ Demo.batch "hls") Demo.url_media
  = (Return (Some ("dash", Demo.DASH)),
     [(DEBUG, "Plugin [dash] found for: http://media.example/live")]).
Proof. reflexivity. Qed.

(** The modules of the path [plugins] are found in the order [dash], [hls],
    [http], [sitea]. *)
Lemma load_keeps_discovery_order_witness :
  (StreamlinkPlugins._load_from_path Demo.iter_modules Demo.exec_module "plugins"
     = (Return Demo.batch, []) ∧
   NoDup (StreamlinkPlugins.module_names (Demo.iter_modules "plugins"))) ∧
  dict_keys Demo.batch =
    filter (λ n, StreamlinkPlugins.is_fallback n = false)
      (StreamlinkPlugins.module_names
         (filter (λ entry, StreamlinkPlugins.exports Demo.exec_module entry = true)
            (Demo.iter_modules "plugins"))) ++
    filter (λ n, n ∈ StreamlinkPlugins.module_names
                   (filter (λ entry,
                              StreamlinkPlugins.exports Demo.exec_module entry = true)
                      (Demo.iter_modules "plugins")))
      ["hls"; "dash"; "http"].
Proof.
  assert (StreamlinkPlugins._load_from_path Demo.iter_modules Demo.exec_module
            "plugins" = (Return Demo.batch, [])) as Hrun by reflexivity.
  assert (NoDup (StreamlinkPlugins.module_names (Demo.iter_modules "plugins")))
    as Hnodup by (apply (bool_decide_unpack _); vm_compute; exact I).
  split; [exact (conj Hrun Hnodup)|].
  exact (load_keeps_discovery_order Demo.iter_modules Demo.exec_module
           "plugins" Demo.batch [] Hrun Hnodup).
Defined.

(** The path [syntaxerror]: site A's module, a module with a syntax error,
    site B's module. *)
Lemma load_aborts_at_first_error_witness :
  (Demo.iter_modules "syntaxerror"
     = [(Demo.defines "syntaxerror/sitea.py" Demo.SiteA, "sitea", false)]
       ++ (Raise (OtherError "SyntaxError"), "typo", false)
       :: [(Demo.defines "syntaxerror/siteb.py" Demo.SiteB, "siteb", false)] ∧
   Forall (StreamlinkPlugins.benign Demo.exec_module)
     [(Demo.defines "syntaxerror/sitea.py" Demo.SiteA, "sitea", false)] ∧
   StreamlinkPlugins.raised_by Demo.exec_module
     (Raise (OtherError "SyntaxError"), "typo", false)
     = Some (OtherError "SyntaxError")) ∧
  ∃ log,
    StreamlinkPlugins._load_from_path Demo.iter_modules Demo.exec_module
      "syntaxerror" = (Raise (OtherError "SyntaxError"), log) ∧
    (∀ self,
       StreamlinkPlugins.load_path Demo.iter_modules Demo.exec_module
         self "syntaxerror" = (Raise (OtherError "SyntaxError"), log)) ∧
    filter (λ r, StreamlinkPlugins.is_error r = true) log
      = omap (StreamlinkPlugins.failure_record Demo.exec_module)
          [(Demo.defines "syntaxerror/sitea.py" Demo.SiteA, "sitea", false)].
Proof.
  assert (Demo.iter_modules "syntaxerror"
          = [(Demo.defines "syntaxerror/sitea.py" Demo.SiteA, "sitea", false)]
            ++ (Raise (OtherError "SyntaxError"), "typo", false)
            :: [(Demo.defines "syntaxerror/siteb.py" Demo.SiteB, "siteb", false)])
    as Hpath by reflexivity.
  assert (Forall (StreamlinkPlugins.benign Demo.exec_module)
            [(Demo.defines "syntaxerror/sitea.py" Demo.SiteA, "sitea", false)])
    as Hbenign.
  { apply Forall_cons_2; [|apply Forall_nil_2]. vm_compute. discriminate. }
  split; [exact (conj Hpath (conj Hbenign eq_refl))|].
  exact (load_aborts_at_first_error Demo.iter_modules Demo.exec_module
           "syntaxerror" _ _ _ _ Hpath Hbenign eq_refl).
Defined.


(** A buffered stream is opened; closing the response fails and the handle
    of the reader thread is closed all the same. *)
Lemma open_then_close_witness :
  DemoStream.open (HTTPStream.__init__ true) []
    = (Return DemoStream.thread_handle,
       {| HTTPStream.buffered := true;
          HTTPStream.fd := DemoStream.thread_handle;
          HTTPStream.res := DemoStream.response |},
       ["thread.start"; "request"]) ∧
  ∃ r w1,
    DemoStream.request [] = (Return r, w1) ∧
    HTTPStream.close
      {| HTTPStream.buffered := true;
         HTTPStream.fd := DemoStream.thread_handle;
         HTTPStream.res := DemoStream.response |}
      ["thread.start"; "request"]
    = (Return tt,
       if HTTPStream.hasattr_close DemoStream.thread_handle
       then (HTTPStream.call_close DemoStream.thread_handle
               (if HTTPStream.hasattr_close r
                then (HTTPStream.call_close r ["thread.start"; "request"]).2
                else ["thread.start"; "request"])).2
       else (if HTTPStream.hasattr_close r
             then (HTTPStream.call_close r ["thread.start"; "request"]).2
             else ["thread.start"; "request"])).
Proof.
  assert (DemoStream.open (HTTPStream.__init__ true) []
          = (Return DemoStream.thread_handle,
             {| HTTPStream.buffered := true;
                HTTPStream.fd := DemoStream.thread_handle;
                HTTPStream.res := DemoStream.response |},
             ["thread.start"; "request"])) as Hopen by reflexivity.
  split; [exact Hopen|].
  exact (open_then_close DemoStream.request DemoStream.iter_wrapper
           DemoStream.thread_wrapper _ _ _ _ _ Hopen).
Defined.

Example open_close_trace :
  HTTPStream.close
    {| HTTPStream.buffered := true;
       HTTPStream.fd := DemoStream.thread_handle;
       HTTPStream.res := DemoStream.response |}
    ["thread.start"; "request"]
  = (Return tt, ["thread.close"; "res.close"; "thread.start"; "request"]).
Proof. reflexivity. Qed.

(** A registry of two plugins is cleared and the path [plugins] loaded. *)
Lemma clear_then_load_witness :
  StreamlinkPlugins._load_from_path Demo.iter_modules Demo.exec_module "plugins"
    = (Return Demo.batch, []) ∧
  StreamlinkPlugins.get_names (StreamlinkPlugins.clear Demo.registry_ab) = [] ∧
  (∀ url,
     StreamlinkPlugins.match_url Demo.matchers Demo.pattern_match
       (StreamlinkPlugins.clear Demo.registry_ab) url = (Return None, [])) ∧
  StreamlinkPlugins.load_path Demo.iter_modules Demo.exec_module
    (StreamlinkPlugins.clear Demo.registry_ab) "plugins"
    = (Return (dict_bool Demo.batch, Demo.batch), []) ∧
  StreamlinkPlugins.batch_order Demo.batch.
Proof.
  assert (StreamlinkPlugins._load_from_path Demo.iter_modules Demo.exec_module
            "plugins" = (Return Demo.batch, [])) as Hrun by reflexivity.
  split; [exact Hrun|].
  exact (clear_then_load Demo.matchers Demo.pattern_match Demo.iter_modules
           Demo.exec_module Demo.registry_ab "plugins" Demo.batch [] Hrun).
Defined.

(** The path [mixed] is loaded into a registry with site B's plugin, which
    the path has too. *)
Lemma load_path_names_witness :
  (StreamlinkPlugins.load_path Demo.iter_modules Demo.exec_module
     Demo.registry_ab "mixed"
     = (Return (true, Demo.registry_ab),
        [(ERROR, "Failed to load plugin broken from mixed/broken.py" +:+ LF)]) ∧
   NoDup (StreamlinkPlugins.module_names (Demo.iter_modules "mixed"))) ∧
  ∀ name,
    name ∈ StreamlinkPlugins.get_names Demo.registry_ab ↔
    name ∈ StreamlinkPlugins.get_names Demo.registry_ab ∨
    name ∈ StreamlinkPlugins.module_names
             (filter (λ entry, StreamlinkPlugins.exports Demo.exec_module entry = true)
                (Demo.iter_modules "mixed")).
Proof.
  assert (StreamlinkPlugins.load_path Demo.iter_modules Demo.exec_module
            Demo.registry_ab "mixed"
          = (Return (true, Demo.registry_ab),
             [(ERROR, "Failed to load plugin broken from mixed/broken.py" +:+ LF)]))
    as Hrun by reflexivity.
  assert (NoDup (StreamlinkPlugins.module_names (Demo.iter_modules "mixed")))
    as Hnodup by (apply (bool_decide_unpack _); vm_compute; exact I).
  split; [exact (conj Hrun Hnodup)|].
  exact (load_path_names Demo.iter_modules Demo.exec_module
           Demo.registry_ab "mixed" true Demo.registry_ab _ Hrun Hnodup).
Defined.

Lemma load_path_log_witness :
  (StreamlinkPlugins.load_path Demo.iter_modules Demo.exec_module
     Demo.registry_ab "mixed"
     = (Return (true, Demo.registry_ab),
        [(ERROR, "Failed to load plugin broken from mixed/broken.py" +:+ LF)]) ∧
   NoDup (StreamlinkPlugins.module_names (Demo.iter_modules "mixed"))) ∧
  [(ERROR, "Failed to load plugin broken from mixed/broken.py" +:+ LF)]
    = omap (StreamlinkPlugins.failure_record Demo.exec_module)
        (Demo.iter_modules "mixed").
Proof.
  assert (StreamlinkPlugins.load_path Demo.iter_modules Demo.exec_module
            Demo.registry_ab "mixed"
          = (Return (true, Demo.registry_ab),
             [(ERROR, "Failed to load plugin broken from mixed/broken.py" +:+ LF)]))
    as Hrun by reflexivity.
  assert (NoDup (StreamlinkPlugins.module_names (Demo.iter_modules "mixed")))
    as Hnodup by (apply (bool_decide_unpack _); vm_compute; exact I).
  split; [exact (conj Hrun Hnodup)|].
  exact (load_path_log Demo.iter_modules Demo.exec_module
           Demo.registry_ab "mixed" true Demo.registry_ab _ Hrun Hnodup).
Defined.
